(** * Orchestration configuration and SDFG utilities of pace.dsl.dace

    A shallow embedding of [pace/dsl/dace/dace_config.py] and
    [pace/dsl/dace/utils.py].  Python objects are attribute dictionaries,
    exceptions are an explicit result type, and calls to collaborators that
    live outside these two modules are recorded in a trace. *)

From Stdlib Require Import ZArith.
From stdpp Require Import gmap strings list finite pretty.

Local Open Scope Z_scope.
Local Open Scope string_scope.
Local Open Scope list_scope.

(** ** Python runtime pieces shared by both modules *)

Inductive Exception : Type :=
| KeyError (key : string)
| RuntimeError (msg : string)
| AttributeError (attr : string).

Inductive result (A : Type) : Type :=
| Ok (a : A)
| Raise (e : Exception).
Arguments Ok {A} a.
Arguments Raise {A} e.

#[global] Instance result_ret : MRet result := λ A a, Ok a.
#[global] Instance result_bind : MBind result := λ A B k r,
  match r with
  | Ok a => k a
  | Raise e => Raise e
  end.

Definition is_Ok {A} (r : result A) : Prop :=
  match r with Ok _ => True | Raise _ => False end.

Definition is_Raise {A} (r : result A) : Prop :=
  match r with Ok _ => False | Raise _ => True end.

(** [needle in hay] on Python strings: substring containment. *)
Fixpoint str_in (needle hay : string) : bool :=
  String.prefix needle hay ||
  match hay with
  | EmptyString => false
  | String _ rest => str_in needle rest
  end.

(** [os.getenv(name, default)] over the process environment. *)
Definition getenv (environ : gmap string string) (name dflt : string) : string :=
  default dflt (environ !! name).

(** ** dace_config.py *)

Module DaceConfig.

Inductive DaCeOrchestration : Type :=
| Python
| Build
| BuildAndRun
| Run.

Global Instance DaCeOrchestration_eq_dec : EqDecision DaCeOrchestration.
Proof. solve_decision. Defined.

(** The member names, in declaration order. *)
Definition member_names : list string := ["Python"; "Build"; "BuildAndRun"; "Run"].

(** [DaCeOrchestration[name]]: lookup of a member by name; an unknown name
    is a [KeyError]. *)
Definition DaCeOrchestration_getitem (name : string) : result DaCeOrchestration :=
  if decide (name = "Python") then Ok Python
  else if decide (name = "Build") then Ok Build
  else if decide (name = "BuildAndRun") then Ok BuildAndRun
  else if decide (name = "Run") then Ok Run
  else Raise (KeyError name).

Definition member_name (o : DaCeOrchestration) : string :=
  match o with
  | Python => "Python"
  | Build => "Build"
  | BuildAndRun => "BuildAndRun"
  | Run => "Run"
  end.

(** [str(member)], which is also what an f-string renders. *)
Definition str (o : DaCeOrchestration) : string :=
  "DaCeOrchestration." +:+ member_name o.

(** Values stored in the attributes of a [DaceConfig] object. *)
Inductive PyVal : Type :=
| VOrchestration (o : DaCeOrchestration)
| VStr (s : string)
| VInt (z : Z).

(** [self.__dict__] *)
Abbreviation Attrs := (gmap string PyVal).

Definition getattr (self : Attrs) (name : string) : result PyVal :=
  match self !! name with
  | Some v => Ok v
  | None => Raise (AttributeError name)
  end.

Section Init.

(** The partition topology carried by a communicator is opaque here. *)
Variable Partitioner : Type.

(** What the constructor reads of a [CubedSphereCommunicator]:
    [communicator.rank], [communicator.comm.Get_size()] and
    [communicator.partitioner]. *)
Record CubedSphereCommunicator : Type := {
  rank : Z;
  comm_Get_size : Z;
  partitioner : Partitioner;
}.

(** Calls into [pace.dsl.dace.build], in the order they are made.  The
    [config] argument is the state of [self] at the time of the call; the
    callees are taken to return normally and to leave the attributes of
    [config] as they are. *)
Inductive Call : Type :=
| read_target_rank_call (rank : Z) (partitioner : Partitioner)
    (config : Attrs) (layout_filepath : string)
| set_distributed_caches_call (config : Attrs)
| write_decomposition_call (partitioner : Partitioner).

(** The rank id [read_target_rank] answers, and gt4py's
    [cache_settings['root_path']]. *)
Variable read_target_rank : Z → Partitioner → Attrs → string → Z.
Variable root_path : string.

(** Computations that extend the trace and may raise; the trace survives
    an exception. *)
Definition M (A : Type) : Type := list Call → result A * list Call.

Definition raise {A} (e : Exception) : M A := λ tr, (Raise e, tr).
Definition lift {A} (r : result A) : M A := λ tr, (r, tr).
Definition call (c : Call) : M unit := λ tr, (Ok tt, tr ++ [c]).

#[global] Instance M_ret : MRet M := λ A a tr, (Ok a, tr).
#[global] Instance M_bind : MBind M := λ A B k m tr,
  match m tr with
  | (Ok a, tr') => k a tr'
  | (Raise e, tr') => (Raise e, tr')
  end.

Definition get_orchestration (self : Attrs) : result DaCeOrchestration :=
  match getattr self "_orchestrate" with
  | Ok (VOrchestration o) => Ok o
  | Ok _ => Raise (AttributeError "_orchestrate")
  | Raise e => Raise e
  end.

Definition get_str (self : Attrs) (name : string) : result string :=
  match getattr self name with
  | Ok (VStr s) => Ok s
  | Ok _ => Raise (AttributeError name)
  | Raise e => Raise e
  end.

Definition get_int (self : Attrs) (name : string) : result Z :=
  match getattr self name with
  | Ok (VInt z) => Ok z
  | Ok _ => Raise (AttributeError name)
  | Raise e => Raise e
  end.

(** Lines 35-38: the mode given, or the one named by [FV3_DACEMODE]. *)
Definition resolve_orchestration (orchestration : option DaCeOrchestration)
    (environ : gmap string string) : result DaCeOrchestration :=
  match orchestration with
  | None => DaCeOrchestration_getitem (getenv environ "FV3_DACEMODE" "Python")
  | Some o => Ok o
  end.

Definition error_message (backend : string) : string :=
  "DaceConfig: orchestration can only be leverage " +:+
  "on gtc:dace or gtc:dace:gpu not on " +:+ backend.

(** [DaceConfig.__init__]; the result is the constructed object. *)
Definition __init__ (environ : gmap string string)
    (communicator : option CubedSphereCommunicator) (backend : string)
    (orchestration : option DaCeOrchestration) : M Attrs :=
  o ← lift (resolve_orchestration orchestration environ);
  let self : Attrs := <["_orchestrate" := VOrchestration o]> ∅ in
  let self := <["_backend" := VStr backend]> self in
  self ← match communicator with
         | Some c =>
             let self := <["my_rank" := VInt (rank c)]> self in
             let self := <["rank_size" := VInt (comm_Get_size c)]> self in
             let config_path := root_path +:+ "/.layout/decomposition.yml" in
             my_rank ← lift (get_int self "my_rank");
             call (read_target_rank_call my_rank (partitioner c) self config_path);;
             mret (<["target_rank" :=
                      VInt (read_target_rank my_rank (partitioner c) self config_path)]> self)
         | None =>
             let self := <["my_rank" := VInt 0]> self in
             let self := <["rank_size" := VInt 1]> self in
             mret (<["target_rank" := VInt 0]> self)
         end;
  call (set_distributed_caches_call self);;
  o ← lift (get_orchestration self);
  my_rank ← lift (get_int self "my_rank");
  rank_size ← lift (get_int self "rank_size");
  (if (bool_decide (o = Build) || bool_decide (o = BuildAndRun))
        && bool_decide (my_rank = 0) && bool_decide (rank_size > 1)
   then match communicator with
        | Some c => call (write_decomposition_call (partitioner c))
        | None => raise (AttributeError "partitioner")
        end
   else mret tt);;
  o ← lift (get_orchestration self);
  backend' ← lift (get_str self "_backend");
  if bool_decide (o ≠ Python) && negb (str_in "dace" backend')
  then raise (RuntimeError (error_message backend'))
  else mret self.

Definition is_dace_orchestrated (self : Attrs) : result bool :=
  match get_orchestration self with
  | Ok o => Ok (bool_decide (o ≠ Python))
  | Raise e => Raise e
  end.

Definition is_gpu_backend (self : Attrs) : result bool :=
  match get_str self "_backend" with
  | Ok b => Ok (str_in "gpu" b)
  | Raise e => Raise e
  end.

Definition get_backend (self : Attrs) : result string := get_str self "_backend".

Definition get_orchestrate (self : Attrs) : result DaCeOrchestration :=
  get_orchestration self.

(** [return self._communicator] *)
Definition get_communicator (self : Attrs) : result PyVal :=
  getattr self "_communicator".

End Init.

Arguments rank {Partitioner} _.
Arguments comm_Get_size {Partitioner} _.
Arguments partitioner {Partitioner} _.
Arguments read_target_rank_call {Partitioner} _ _ _ _.
Arguments set_distributed_caches_call {Partitioner} _.
Arguments write_decomposition_call {Partitioner} _.
Arguments __init__ {Partitioner} _ _ _ _ _ _ _.

End DaceConfig.

(** ** The parts of the dace library that utils.py works on *)

(** [dace.StorageType] *)
Module StorageType.
Inductive t : Type :=
| Default
| Register
| CPU_Pinned
| CPU_Heap
| CPU_ThreadLocal
| GPU_Global
| GPU_Shared
| FPGA_Global
| FPGA_Local
| FPGA_Registers
| FPGA_ShiftRegister
| SVE_Register.

(** Iteration order of [for storage_type in StorageType]. *)
Definition members : list t :=
  [Default; Register; CPU_Pinned; CPU_Heap; CPU_ThreadLocal; GPU_Global;
   GPU_Shared; FPGA_Global; FPGA_Local; FPGA_Registers; FPGA_ShiftRegister;
   SVE_Register].

#[global] Instance eq_dec : EqDecision t.
Proof. solve_decision. Defined.

#[global] Program Instance finite : Finite t := {| enum := members |}.
Next Obligation. by apply (bool_decide_unpack _). Qed.
Next Obligation. intros []; by apply (bool_decide_unpack _). Qed.
End StorageType.

(** [dace.ScheduleType] *)
Module ScheduleType.
Inductive t : Type :=
| Default
| Sequential
| MPI
| CPU_Multicore
| Unrolled
| SVE_Map
| GPU_Default
| GPU_Device
| GPU_ThreadBlock
| GPU_ThreadBlock_Dynamic
| GPU_Persistent
| FPGA_Device.

#[global] Instance eq_dec : EqDecision t.
Proof. solve_decision. Defined.
End ScheduleType.

(** Symbolic index expressions, as far as [evaluate] inspects them:
    [Function f a b] is the undefined function [sp.Function(f)] applied to
    two arguments, [int_floor] is [dace.symbolic.int_floor]. *)
Inductive Expr : Type :=
| Integer (z : Z)
| Symbol (name : string)
| Add (a b : Expr)
| Mul (a b : Expr)
| Function (f : string) (a b : Expr)
| int_floor (a b : Expr).

(** Data descriptors ([dace.data]); [isinstance(desc, dt.View)] is
    [kind desc = View]. *)
Module Data.
Inductive Kind : Type := Scalar | Array | View | Stream.

#[global] Instance Kind_eq_dec : EqDecision Kind.
Proof. solve_decision. Defined.

Record t : Type := {
  kind : Kind;
  shape : list Expr;
  total_size : Z;
  dtype_bytes : Z;
  storage : StorageType.t;
  transient : bool;
}.
End Data.

Module Memlet.
Record t : Type := {
  data : string;
  subset : list (Expr * Expr * Expr);
  dynamic : bool;
  num_accesses : Z;
}.

(** [dace.Memlet.simple(data, subset_str, num_accesses)], with the subset
    kept as the index string it was built from. *)
Record simple : Type := {
  simple_data : string;
  simple_subset : string;
  simple_num_accesses : option Z;
}.
End Memlet.

(** [dace.sdfg.graph.MultiConnectorEdge] *)
Record MultiConnectorEdge (N : Type) : Type := {
  src : N;
  src_conn : option string;
  dst : N;
  dst_conn : option string;
  data : Memlet.t;
}.
Arguments src {N} _.
Arguments src_conn {N} _.
Arguments dst {N} _.
Arguments dst_conn {N} _.
Arguments data {N} _.

(** Nodes, state graphs and SDFGs.  [uid] stands for the identity of the
    Python object, which is what [is] compares. *)
Inductive Node : Type :=
| AccessNode (uid : nat) (data : string)
| MapEntry (uid : nat) (map : string)
| MapExit (uid : nat) (map : string)
| Tasklet (uid : nat) (label : string)
| NestedSDFG (uid : nat) (sdfg : SDFG)
with SDFG : Type :=
| mkSDFG (uid : nat) (name : string) (arrays : list (string * Data.t))
    (states : list StateGraph)
with StateGraph : Type :=
| mkStateGraph (uid : nat) (label : string) (nodes : list Node)
    (edges : list (MultiConnectorEdge Node)).

Abbreviation Edge := (MultiConnectorEdge Node).

Definition node_uid (n : Node) : nat :=
  match n with
  | AccessNode u _ | MapEntry u _ | MapExit u _ | Tasklet u _ | NestedSDFG u _ => u
  end.

Definition sdfg_uid (sd : SDFG) : nat := match sd with mkSDFG u _ _ _ => u end.
Definition sdfg_name (sd : SDFG) : string := match sd with mkSDFG _ n _ _ => n end.
Definition arrays (sd : SDFG) : list (string * Data.t) :=
  match sd with mkSDFG _ _ a _ => a end.
Definition states (sd : SDFG) : list StateGraph :=
  match sd with mkSDFG _ _ _ s => s end.

Definition nodes (g : StateGraph) : list Node :=
  match g with mkStateGraph _ _ n _ => n end.
Definition edges (g : StateGraph) : list Edge :=
  match g with mkStateGraph _ _ _ e => e end.

(** A state as the library hands it out: the state graph together with
    [state.parent], the SDFG that holds it. *)
Record SDFGState : Type := {
  parent : SDFG;
  graph : StateGraph;
}.

(** [sdfg.arrays[name]] *)
Fixpoint arrays_getitem (a : list (string * Data.t)) (name : string) : result Data.t :=
  match a with
  | [] => Raise (KeyError name)
  | (k, d) :: rest => if decide (k = name) then Ok d else arrays_getitem rest name
  end.

(** What [all_nodes_recursive] yields: a state with the SDFG that holds it,
    or a node with the state that holds it. *)
Inductive Item : Type :=
| state_item (state : SDFGState) (sd : SDFG)
| node_item (node : Node) (state : SDFGState).

(** [SDFG.all_nodes_recursive] and [SDFGState.all_nodes_recursive]. *)
Fixpoint all_nodes_recursive (sd : SDFG) : list Item :=
  match sd with
  | mkSDFG _ _ _ sts =>
      flat_map (λ g,
        let state := {| parent := sd; graph := g |} in
        state_item state sd ::
        match g with
        | mkStateGraph _ _ ns _ =>
            flat_map (λ n,
              node_item n state ::
              match n with
              | NestedSDFG _ inner => all_nodes_recursive inner
              | _ => []
              end) ns
        end) sts
  end.

(** [SDFG.arrays_recursive]: triples of owning SDFG, array name, array. *)
Fixpoint arrays_recursive (sd : SDFG) : list (SDFG * string * Data.t) :=
  match sd with
  | mkSDFG _ _ arrs sts =>
      map (λ '(aname, arr), (sd, aname, arr)) arrs ++
      flat_map (λ g,
        match g with
        | mkStateGraph _ _ ns _ =>
            flat_map (λ n,
              match n with
              | NestedSDFG _ inner => arrays_recursive inner
              | _ => []
              end) ns
        end) sts
  end.

(** ** utils.py *)

Module ArrayReport.
Record t : Type := {
  name : string;
  total_size_in_bytes : Z;
  referenced : bool;
  transient : bool;
  top_level : bool;
}.
End ArrayReport.

Module StorageReport.
Record t : Type := {
  name : StorageType.t;
  referenced_in_bytes : Z;
  unreferenced_in_bytes : Z;
  top_level_in_bytes : Z;
  details : list ArrayReport.t;
}.

(** [StorageReport(name=storage_type)] *)
Definition new (storage_type : StorageType.t) : t :=
  {| name := storage_type; referenced_in_bytes := 0; unreferenced_in_bytes := 0;
     top_level_in_bytes := 0; details := [] |}.

(** [r.details.append(d)] *)
Definition details_append (d : ArrayReport.t) (r : t) : t :=
  {| name := name r; referenced_in_bytes := referenced_in_bytes r;
     unreferenced_in_bytes := unreferenced_in_bytes r;
     top_level_in_bytes := top_level_in_bytes r; details := details r ++ [d] |}.

(** [r.referenced_in_bytes += n] *)
Definition add_referenced (n : Z) (r : t) : t :=
  {| name := name r; referenced_in_bytes := referenced_in_bytes r + n;
     unreferenced_in_bytes := unreferenced_in_bytes r;
     top_level_in_bytes := top_level_in_bytes r; details := details r |}.

(** [r.unreferenced_in_bytes += n] *)
Definition add_unreferenced (n : Z) (r : t) : t :=
  {| name := name r; referenced_in_bytes := referenced_in_bytes r;
     unreferenced_in_bytes := unreferenced_in_bytes r + n;
     top_level_in_bytes := top_level_in_bytes r; details := details r |}.

(** [r.top_level_in_bytes += n] *)
Definition add_top_level (n : Z) (r : t) : t :=
  {| name := name r; referenced_in_bytes := referenced_in_bytes r;
     unreferenced_in_bytes := unreferenced_in_bytes r;
     top_level_in_bytes := top_level_in_bytes r + n; details := details r |}.
End StorageReport.

Module Utils.

(** The loop of [is_ref] over the items still to visit. *)
Fixpoint is_ref_loop (sd : SDFG) (aname : string) (items : list Item) : bool :=
  match items with
  | [] => false
  | state_item _ _ :: rest => is_ref_loop sd aname rest
  | node_item node state :: rest =>
      if bool_decide (sdfg_uid (parent state) = sdfg_uid sd) then
        match node with
        | AccessNode _ d =>
            if bool_decide (aname = d) then true else is_ref_loop sd aname rest
        | _ => is_ref_loop sd aname rest
        end
      else is_ref_loop sd aname rest
  end.

Definition is_ref (sd : SDFG) (aname : string) : bool :=
  is_ref_loop sd aname (all_nodes_recursive sd).

Abbreviation Allocations := (gmap StorageType.t StorageReport.t).

(** Lines 69-71: one empty report per storage type. *)
Definition initial_allocations : Allocations :=
  foldl (λ allocations storage_type,
           <[storage_type := StorageReport.new storage_type]> allocations)
        ∅ StorageType.members.

(** Lines 74-106: the body of the loop over [sdfg.arrays_recursive()]. *)
Definition count_memory_step (sdfg : SDFG) (allocations : Allocations)
    (entry : SDFG * string * Data.t) : Allocations :=
  let '(sd, aname, arr) := entry in
  let array_size_in_bytes := Data.total_size arr * Data.dtype_bytes arr in
  let ref := is_ref sd aname in
  if bool_decide (sdfg_uid sd ≠ sdfg_uid sdfg) && Data.transient arr then
    let allocations :=
      alter (StorageReport.details_append
               {| ArrayReport.name := aname;
                  ArrayReport.total_size_in_bytes := array_size_in_bytes;
                  ArrayReport.referenced := ref;
                  ArrayReport.transient := Data.transient arr;
                  ArrayReport.top_level := false |})
            (Data.storage arr) allocations in
    if ref then
      alter (StorageReport.add_referenced array_size_in_bytes)
            (Data.storage arr) allocations
    else
      alter (StorageReport.add_unreferenced array_size_in_bytes)
            (Data.storage arr) allocations
  else if bool_decide (sdfg_uid sd = sdfg_uid sdfg) then
    let allocations :=
      alter (StorageReport.details_append
               {| ArrayReport.name := aname;
                  ArrayReport.total_size_in_bytes := array_size_in_bytes;
                  ArrayReport.referenced := ref;
                  ArrayReport.transient := Data.transient arr;
                  ArrayReport.top_level := true |})
            (Data.storage arr) allocations in
    let allocations :=
      alter (StorageReport.add_top_level array_size_in_bytes)
            (Data.storage arr) allocations in
    if ref then
      alter (StorageReport.add_referenced array_size_in_bytes)
            (Data.storage arr) allocations
    else
      alter (StorageReport.add_unreferenced array_size_in_bytes)
            (Data.storage arr) allocations
  else allocations.

(** [count_memory] up to line 106: the allocation report per storage
    type.  The text rendered from it (lines 108-133) divides these totals as
    floats and is not represented. *)
Definition count_memory (sdfg : SDFG) : Allocations :=
  foldl (count_memory_step sdfg) initial_allocations (arrays_recursive sdfg).

(** *** DaCeProgress *)

Section Progress.

(** Floats stay abstract: subtraction, rendering by an f-string, and the
    value returned by the k-th call of [time.time()]. *)
Variable float : Type.
Variable float_sub : float → float → float.
Variable float_str : float → string.
Variable clock : nat → float.

Record World : Type := {
  stdout : list string;
  clock_reads : nat;
}.

(** [print(line, flush=True)] *)
Definition print (line : string) (w : World) : World :=
  {| stdout := stdout w ++ [line]; clock_reads := clock_reads w |}.

(** [time.time()] *)
Definition time (w : World) : float * World :=
  (clock (clock_reads w),
   {| stdout := stdout w; clock_reads := S (clock_reads w) |}).

Record DaCeProgress : Type := {
  prefix : string;
  label : string;
  start : option float;
}.

Definition log (prefix message : string) (w : World) : World :=
  print (prefix +:+ " " +:+ message) w.

Definition default_prefix (config : DaceConfig.Attrs) : result string :=
  o ← DaceConfig.get_orchestrate config;
  mret ("[" +:+ DaceConfig.str o +:+ "]").

Definition DaCeProgress_init (config : DaceConfig.Attrs) (label : string)
    : result DaCeProgress :=
  _ ← default_prefix config;
  o ← DaceConfig.get_orchestrate config;
  mret {| prefix := "[" +:+ DaceConfig.str o +:+ "]"; label := label; start := None |}.

(** [__enter__] returns [None]; the object with [start] assigned is
    returned here. *)
Definition __enter__ (self : DaCeProgress) (w : World) : DaCeProgress * World :=
  let w := log (prefix self) (label self +:+ "...") w in
  let '(t, w) := time w in
  ({| prefix := prefix self; label := label self; start := Some t |}, w).

(** [__exit__] returns [None], which is falsy; the result is that
    truth value. *)
Definition __exit__ (self : DaCeProgress) (w : World) : result bool * World :=
  let '(t, w) := time w in
  match start self with
  | None => (Raise (AttributeError "start"), w)
  | Some s =>
      let elapsed := float_sub t s in
      (Ok false, log (prefix self) (label self +:+ "..." +:+ float_str elapsed +:+ "s.") w)
  end.

(** [with DaCeProgress(config, label): body].  A body that raises has its
    exception re-raised unless [__exit__] answers a true value, in which
    case the statement completes with nothing ([None]). *)
Definition with_DaCeProgress {A} (config : DaceConfig.Attrs) (label : string)
    (body : World → result A * World) (w : World) : result (option A) * World :=
  match DaCeProgress_init config label with
  | Raise e => (Raise e, w)
  | Ok self =>
      let '(self, w) := __enter__ self w in
      let '(r, w) := body w in
      match __exit__ self w with
      | (Raise e, w) => (Raise e, w)
      | (Ok suppress, w) =>
          match r with
          | Ok a => (Ok (Some a), w)
          | Raise e => if suppress then (Ok None, w) else (Raise e, w)
          end
      end
  end.

End Progress.

Arguments prefix {float} _.
Arguments label {float} _.
Arguments start {float} _.
Arguments DaCeProgress_init {float} _ _.
Arguments __enter__ {float} _ _ _.
Arguments __exit__ {float} _ _ _ _ _.
Arguments with_DaCeProgress {float} _ _ _ {A} _ _ _ _.

(** *** NaN_checker *)

(** [node.data]: only access nodes have the attribute. *)
Definition node_data (n : Node) : result string :=
  match n with
  | AccessNode _ d => Ok d
  | _ => Raise (AttributeError "data")
  end.

(** [state.out_edges(node)] *)
Definition out_edges (state : SDFGState) (node : Node) : list Edge :=
  List.filter (λ e, bool_decide (node_uid (src e) = node_uid node))
              (edges (graph state)).

(** [evaluate]: [expr.subs({sp.Function("int_floor"): symbolic.int_floor})] *)
Fixpoint evaluate (expr : Expr) : Expr :=
  match expr with
  | Integer z => Integer z
  | Symbol x => Symbol x
  | Add a b => Add (evaluate a) (evaluate b)
  | Mul a b => Mul (evaluate a) (evaluate b)
  | Function f a b =>
      if bool_decide (f = "int_floor") then int_floor (evaluate a) (evaluate b)
      else Function f (evaluate a) (evaluate b)
  | int_floor a b => int_floor (evaluate a) (evaluate b)
  end.

(** The arguments of one [state.add_mapped_tasklet] call. *)
Record MappedTasklet : Type := {
  on_state : SDFGState;
  tasklet_name : string;
  map_ranges : list (string * (Expr * Expr * Expr));
  inputs : list (string * Memlet.simple);
  schedule : ScheduleType.t;
  outputs : list (string * Memlet.simple);
  input_nodes : list (string * Node);
  output_nodes : list (string * Node);
  external_edges : bool;
}.

Abbreviation Check := (SDFGState * Node * Edge)%type.

Section NaNChecker.

(** Scope and path queries answered by the dace library:
    [get_parent_map(state, node)], [state.exit_node(entry)],
    [state.memlet_path(edge)] (never empty: it is grown around the edge it
    is asked about), the node a chain of views ends in, and the identity of
    the k-th access node copied by the pass. *)
Variable get_parent_map : SDFGState → Node → option (Node * SDFGState).
Variable exit_node : SDFGState → Node → Node.
Variable memlet_path : SDFGState → Edge → Edge * list Edge.
Variable get_view_node : SDFGState → Node → option Node.
Variable new_id : nat → nat.

(** [sdutil.get_last_view_node(state, view)]: the node itself unless its
    descriptor is a view. *)
Definition get_last_view_node (state : SDFGState) (view : Node) : result (option Node) :=
  d ← node_data view;
  desc ← arrays_getitem (arrays (parent state)) d;
  if bool_decide (Data.kind desc = Data.View) then mret (get_view_node state view)
  else mret (Some view).

(** Lines 159-163 *)
Definition allmaps (sdfg : SDFG) : list (Node * SDFGState) :=
  omap (λ it, match it with
              | node_item (MapEntry u m) state => Some (MapEntry u m, state)
              | _ => None
              end) (all_nodes_recursive sdfg).

(** Lines 164-166 *)
Definition topmaps (sdfg : SDFG) : list (Node * SDFGState) :=
  List.filter (λ '(me, state),
                 match get_parent_map state me with None => true | Some _ => false end)
              (allmaps sdfg).

(** Lines 170-181, for one edge: the check to append, if any. *)
Definition check_edge (state : SDFGState) (e : Edge) : result (option Check) :=
  match dst e with
  | AccessNode _ d =>
      desc ← arrays_getitem (arrays (parent state)) d;
      if bool_decide (Data.kind desc = Data.View) then mret None
      else
        last ← get_last_view_node state (dst e);
        match last with
        | None => Raise (AttributeError "data")
        | Some node =>
            nd ← node_data node;
            if str_in "diss_estd" nd then mret None
            else if Memlet.dynamic (data (memlet_path state e).1) then mret None
            else mret (Some (state, node, e))
        end
  | _ => mret None
  end.

(** Line 169: the loop over the out edges of one map exit. *)
Fixpoint edges_loop (state : SDFGState) (es : list Edge) (checks : list Check)
    : result (list Check) :=
  match es with
  | [] => mret checks
  | e :: rest =>
      c ← check_edge state e;
      edges_loop state rest (match c with Some c => checks ++ [c] | None => checks end)
  end.

(** Line 167: the loop over the top-level maps. *)
Fixpoint maps_loop (maps : list (Node * SDFGState)) (checks : list Check)
    : result (list Check) :=
  match maps with
  | [] => mret checks
  | (me, state) :: rest =>
      let mx := exit_node state me in
      checks ← edges_loop state (out_edges state mx) checks;
      maps_loop rest checks
  end.

Definition collect_checks (sdfg : SDFG) : result (list Check) :=
  maps_loop (topmaps sdfg) [].

Definition index_name (i : nat) : string := "__i" +:+ pretty i.

(** Lines 184-230 for the k-th check.  Moving the out edges of [node] to
    its copy (lines 186-188) rewires the library's graph and is not
    represented; the call that inserts the checking map is, up to the text
    of the tasklet.  The library calls are taken to return normally. *)
Definition insert_check (k : nat) (c : Check) : result MappedTasklet :=
  let '(state, node, e) := c in
  match node with
  | AccessNode _ d =>
      let newnode := AccessNode (new_id k) d in
      let sdfg := parent state in
      inparr ← arrays_getitem (arrays sdfg) d;
      let index_expr :=
        String.concat ", " (map index_name (seq 0 (length (Data.shape inparr)))) in
      let schedule_type :=
        if bool_decide (Data.storage inparr = StorageType.GPU_Global)
           || bool_decide (Data.storage inparr = StorageType.GPU_Shared)
        then ScheduleType.GPU_Device
        else ScheduleType.Default in
      let ranges :=
        imap (λ i '(b, en, st), (index_name i, (evaluate b, evaluate en, evaluate st)))
             (Memlet.subset (data e)) in
      mret {| on_state := state;
              tasklet_name := "nancheck";
              map_ranges := ranges;
              inputs := [("__inp", {| Memlet.simple_data := d;
                                      Memlet.simple_subset := index_expr;
                                      Memlet.simple_num_accesses := None |})];
              schedule := schedule_type;
              outputs := [("__out", {| Memlet.simple_data := d;
                                       Memlet.simple_subset := index_expr;
                                       Memlet.simple_num_accesses := Some (-1) |})];
              input_nodes := [(d, node)];
              output_nodes := [(d, newnode)];
              external_edges := true |}
  | _ => Raise (AttributeError "data")
  end.

(** Line 182: the loop over the collected checks, from the k-th on. *)
Fixpoint insert_loop (k : nat) (checks : list Check) : result (list MappedTasklet) :=
  match checks with
  | [] => mret []
  | c :: rest =>
      call ← insert_check k c;
      calls ← insert_loop (S k) rest;
      mret (call :: calls)
  end.

(** [NaN_checker]: the inserted checking maps and the line printed. *)
Definition NaN_checker (sdfg : SDFG) : result (list MappedTasklet * string) :=
  checks ← collect_checks sdfg;
  calls ← insert_loop 0 checks;
  mret (calls, "Added " +:+ pretty (length checks) +:+ " NaN checks").

End NaNChecker.

End Utils.

(** * Specification vocabulary *)

(** ** For the constructor of [DaceConfig] *)

Module ConfigSpec.
Import DaceConfig.

Section Spec.
Context {Partitioner : Type}.
Variable read_target_rank : Z → Partitioner → Attrs → string → Z.
Variable root_path : string.

Definition layout_filepath : string := root_path +:+ "/.layout/decomposition.yml".

Definition base_attrs (backend : string) (o : DaCeOrchestration) : Attrs :=
  <["_backend" := VStr backend]> (<["_orchestrate" := VOrchestration o]> ∅).

Definition attrs_before_read (c : CubedSphereCommunicator Partitioner)
    (backend : string) (o : DaCeOrchestration) : Attrs :=
  <["rank_size" := VInt (comm_Get_size c)]>
    (<["my_rank" := VInt (rank c)]> (base_attrs backend o)).

(** The object a successful construction leaves behind. *)
Definition constructed (communicator : option (CubedSphereCommunicator Partitioner))
    (backend : string) (o : DaCeOrchestration) : Attrs :=
  match communicator with
  | Some c =>
      <["target_rank" := VInt (read_target_rank (rank c) (partitioner c)
                                 (attrs_before_read c backend o) layout_filepath)]>
        (attrs_before_read c backend o)
  | None =>
      <["target_rank" := VInt 0]>
        (<["rank_size" := VInt 1]> (<["my_rank" := VInt 0]> (base_attrs backend o)))
  end.

(** The target-rank lookup, made only with a communicator. *)
Definition reads (communicator : option (CubedSphereCommunicator Partitioner))
    (backend : string) (o : DaCeOrchestration) : list (Call Partitioner) :=
  match communicator with
  | Some c => [read_target_rank_call (rank c) (partitioner c)
                 (attrs_before_read c backend o) layout_filepath]
  | None => []
  end.

(** Rank 0 of several ranks, in a mode that compiles. *)
Definition writes_descriptor (communicator : option (CubedSphereCommunicator Partitioner))
    (o : DaCeOrchestration) : Prop :=
  match communicator with
  | Some c => (o = Build ∨ o = BuildAndRun) ∧ rank c = 0 ∧ comm_Get_size c > 1
  | None => False
  end.

#[global] Instance writes_descriptor_dec communicator o :
  Decision (writes_descriptor communicator o).
Proof. destruct communicator; simpl; apply _. Defined.

Definition writes (communicator : option (CubedSphereCommunicator Partitioner))
    (o : DaCeOrchestration) : list (Call Partitioner) :=
  match communicator with
  | Some c =>
      if decide (writes_descriptor (Some c) o)
      then [write_decomposition_call (partitioner c)] else []
  | None => []
  end.

Definition is_write (c : Call Partitioner) : bool :=
  match c with write_decomposition_call _ => true | _ => false end.

End Spec.

(** A process without MPI and one rank of a four-rank run. *)
Definition no_ranks : Z → unit → Attrs → string → Z := λ _ _ _ _, 0.
Definition rank0_of_4 : CubedSphereCommunicator unit :=
  {| rank := 0; comm_Get_size := 4; partitioner := tt |}.

End ConfigSpec.

(** ** For [count_memory] *)

Module MemorySpec.

Abbreviation Entry := (SDFG * string * Data.t)%type.

Definition size_in_bytes (arr : Data.t) : Z :=
  Data.total_size arr * Data.dtype_bytes arr.

(** The byte sizes of the enumerated arrays that [keep] selects, summed. *)
Definition bytes_of (keep : Entry → bool) (entries : list Entry) : Z :=
  foldr (λ entry acc, (if keep entry then size_in_bytes entry.2 else 0) + acc)
        0 entries.

Definition in_class (storage : StorageType.t) (entry : Entry) : bool :=
  bool_decide (Data.storage entry.2 = storage).

Definition owned_by (sdfg : SDFG) (entry : Entry) : bool :=
  bool_decide (sdfg_uid entry.1.1 = sdfg_uid sdfg).

(** All transient arrays of a storage class. *)
Definition transient_bytes (sdfg : SDFG) (storage : StorageType.t) : Z :=
  bytes_of (λ entry, in_class storage entry && Data.transient entry.2)
           (arrays_recursive sdfg).

(** The arrays of a storage class that are transient or owned by the root. *)
Definition accounted_bytes (sdfg : SDFG) (storage : StorageType.t) : Z :=
  bytes_of (λ entry, in_class storage entry
                     && (owned_by sdfg entry || Data.transient entry.2))
           (arrays_recursive sdfg).

Definition total (r : StorageReport.t) : Z :=
  StorageReport.referenced_in_bytes r + StorageReport.unreferenced_in_bytes r.

(** Referenced plus unreferenced bytes of a storage class. *)
Definition bucket_sum (allocations : Utils.Allocations) (storage : StorageType.t)
    : option Z :=
  total <$> allocations !! storage.

(** An access node of a state held directly by [sd] names [aname]. *)
Definition referenced_in_scope (sd : SDFG) (aname : string) (items : list Item) : Prop :=
  ∃ u state, node_item (AccessNode u aname) state ∈ items
             ∧ sdfg_uid (parent state) = sdfg_uid sd.

(** Whether the item is an access node that names [aname] in a state held
    directly by [sd]. *)
Definition names_in_scope (sd : SDFG) (aname : string) (it : Item) : Prop :=
  match it with
  | node_item (AccessNode _ d) state =>
      d = aname ∧ sdfg_uid (parent state) = sdfg_uid sd
  | _ => False
  end.

#[global] Instance names_in_scope_dec sd aname it :
  Decision (names_in_scope sd aname it).
Proof. destruct it as [?|[] ?]; simpl; apply _. Defined.

#[global] Instance referenced_in_scope_dec sd aname items :
  Decision (referenced_in_scope sd aname items).
Proof.
  refine (cast_if (decide (Exists (names_in_scope sd aname) items))).
  - apply Exists_exists in e as (it & Hin & Hit).
    destruct it as [|[] state]; try contradiction.
    destruct Hit as [-> Hp]. eexists _, _. split; [exact Hin|exact Hp].
  - intros (u & state & Hin & Hp). apply n, Exists_exists.
    eexists. split; [exact Hin|]. split; [reflexivity|exact Hp].
Defined.

(** The array of an enumerated triple is referenced in its owning scope. *)
Definition referenced (entry : Entry) : Prop :=
  referenced_in_scope entry.1.1 entry.1.2 (all_nodes_recursive entry.1.1).

(** The byte sizes of the arrays of a storage class that the root owns,
    those referenced in their owning scope or those not. *)
Definition root_bytes (sdfg : SDFG) (storage : StorageType.t) (is_referenced : bool)
    : Z :=
  bytes_of (λ entry, in_class storage entry && owned_by sdfg entry
                     && eqb (bool_decide (referenced entry)) is_referenced)
           (arrays_recursive sdfg).

(** The byte sizes of the transient arrays of a storage class whose owning
    SDFG is not the root, those referenced in their owning scope or those
    not.  An array of another SDFG that is not transient is in neither. *)
Definition nested_bytes (sdfg : SDFG) (storage : StorageType.t) (is_referenced : bool)
    : Z :=
  bytes_of (λ entry, in_class storage entry && negb (owned_by sdfg entry)
                     && Data.transient entry.2
                     && eqb (bool_decide (referenced entry)) is_referenced)
           (arrays_recursive sdfg).

Definition host_array (transient : bool) (total_size : Z) : Data.t :=
  {| Data.kind := Data.Array; Data.shape := [Integer total_size];
     Data.total_size := total_size; Data.dtype_bytes := 8;
     Data.storage := StorageType.CPU_Heap; Data.transient := transient |}.

(** One externally visible array of 16 bytes at the root, nothing else. *)
Definition root_only : SDFG :=
  mkSDFG 0 "root_only" [("field", host_array false 2)] [].

(** A nested SDFG with two transients, of which only [tmp] is accessed in
    its own states, and an argument array. *)
Definition inner : SDFG :=
  mkSDFG 1 "inner"
    [("tmp", host_array true 4); ("dead", host_array true 2);
     ("arg", host_array false 8)]
    [mkStateGraph 11 "compute" [AccessNode 12 "tmp"; AccessNode 13 "arg"] []].

Definition outer : SDFG :=
  mkSDFG 0 "outer" [("field", host_array false 8)]
    [mkStateGraph 10 "call" [AccessNode 14 "field"; NestedSDFG 15 inner] []].

End MemorySpec.

(** ** For [NaN_checker] *)

Module CheckerSpec.

(** Storage on the device, as the pass tells it. *)
Definition device_resident (storage : StorageType.t) : Prop :=
  storage = StorageType.GPU_Global ∨ storage = StorageType.GPU_Shared.

(** The parallel regions of a graph: the map entries of its states and of
    the states of the SDFGs nested in it, at any depth, each with the state
    that holds it. *)
Fixpoint parallel_regions (sd : SDFG) : list (Node * SDFGState) :=
  match sd with
  | mkSDFG _ _ _ sts =>
      flat_map (λ g,
        match g with
        | mkStateGraph _ _ ns _ =>
            flat_map (λ n,
              match n with
              | MapEntry _ _ => [(n, {| parent := sd; graph := g |})]
              | NestedSDFG _ inner => parallel_regions inner
              | _ => []
              end) ns
        end) sts
  end.

Section Spec.
Variable get_parent_map : SDFGState → Node → option (Node * SDFGState).
Variable exit_node : SDFGState → Node → Node.
Variable memlet_path : SDFGState → Edge → Edge * list Edge.

(** The out edges of the exits of the given maps, with their state. *)
Definition edges_of (maps : list (Node * SDFGState)) : list (SDFGState * Edge) :=
  flat_map (λ '(me, state),
              map (pair state) (Utils.out_edges state (exit_node state me))) maps.

(** A parallel region is top-level when no parallel region encloses it. *)
Definition top_level (region : Node * SDFGState) : Prop :=
  get_parent_map region.2 region.1 = None.

Definition top_level_regions (sdfg : SDFG) : list (Node * SDFGState) :=
  List.filter (λ region, bool_decide (top_level region)) (parallel_regions sdfg).

(** The out edges of the exits of the top-level parallel regions. *)
Definition candidate_edges (sdfg : SDFG) : list (SDFGState * Edge) :=
  edges_of (top_level_regions sdfg).

(** An edge into an access node names an array of the SDFG of its state. *)
Definition declared (c : SDFGState * Edge) : Prop :=
  match dst c.2 with
  | AccessNode _ d => is_Ok (arrays_getitem (arrays (parent c.1)) d)
  | _ => True
  end.

Definition is_view (state : SDFGState) (d : string) : bool :=
  match arrays_getitem (arrays (parent state)) d with
  | Ok desc => bool_decide (Data.kind desc = Data.View)
  | Raise _ => false
  end.

(** The write behind the edge, the first memlet of its path, is dynamic. *)
Definition dynamic_write (state : SDFGState) (e : Edge) : bool :=
  Memlet.dynamic (data (memlet_path state e).1).

(** The destination is an access node, and the edge is none of: into a
    view, into the diagnostic array, a dynamic write. *)
Definition eligible (c : SDFGState * Edge) : bool :=
  match dst c.2 with
  | AccessNode _ d =>
      negb (is_view c.1 d) && negb (str_in "diss_estd" d)
      && negb (dynamic_write c.1 c.2)
  | _ => false
  end.

Definition check_of (c : SDFGState * Edge) : Utils.Check := (c.1, dst c.2, c.2).

(** The inserted checking map [call] belongs to the edge of [c]: it is put
    on the state of the edge, fed from the destination node, and scheduled
    on the device exactly when the destination array lives there, with the
    default schedule otherwise. *)
Definition instruments (c : SDFGState * Edge) (call : Utils.MappedTasklet) : Prop :=
  ∃ d arr,
    Utils.node_data (dst c.2) = Ok d
    ∧ arrays_getitem (arrays (parent c.1)) d = Ok arr
    ∧ Utils.on_state call = c.1
    ∧ Utils.input_nodes call = [(d, dst c.2)]
    ∧ (Utils.schedule call = ScheduleType.GPU_Device
       ↔ device_resident (Data.storage arr))
    ∧ (¬ device_resident (Data.storage arr)
       → Utils.schedule call = ScheduleType.Default).

End Spec.

Definition report (n : nat) : string := "Added " +:+ pretty n +:+ " NaN checks".

(** Library answers for flat example graphs: no map is nested, the exit of
    a map is the [MapExit] of the same map, and the path of an edge starts
    at the edge that enters its source. *)
Definition flat_parent_map (_ : SDFGState) (_ : Node) : option (Node * SDFGState) :=
  None.

Definition flat_exit_node (state : SDFGState) (me : Node) : Node :=
  match me with
  | MapEntry _ m =>
      List.hd me (List.filter (λ n, match n with
                                    | MapExit _ m' => bool_decide (m = m')
                                    | _ => false
                                    end) (nodes (graph state)))
  | _ => me
  end.

Definition flat_memlet_path (state : SDFGState) (e : Edge) : Edge * list Edge :=
  match List.filter (λ e', bool_decide (node_uid (dst e') = node_uid (src e)))
                    (edges (graph state)) with
  | e' :: _ => (e', [e])
  | [] => (e, [])
  end.

Definition no_view_node (_ : SDFGState) (_ : Node) : option Node := None.

Definition flat_new_id (k : nat) : nat := 100 + k.

Definition flat_checker (sdfg : SDFG) : result (list Utils.MappedTasklet * string) :=
  Utils.NaN_checker flat_parent_map flat_exit_node flat_memlet_path no_view_node
    flat_new_id sdfg.

Definition calls_of (r : result (list Utils.MappedTasklet * string))
    : list Utils.MappedTasklet :=
  match r with Ok (calls, _) => calls | Raise _ => [] end.

Definition line_of (r : result (list Utils.MappedTasklet * string)) : string :=
  match r with Ok (_, line) => line | Raise _ => "" end.

Definition array_in (kind : Data.Kind) (storage : StorageType.t) : Data.t :=
  {| Data.kind := kind; Data.shape := [Integer 4; Integer 4];
     Data.total_size := 16; Data.dtype_bytes := 8;
     Data.storage := storage; Data.transient := false |}.

Definition memlet_of (d : string) (dynamic : bool) : Memlet.t :=
  {| Memlet.data := d;
     Memlet.subset := [(Integer 0, Integer 3, Integer 1);
                       (Integer 0, Function "int_floor" (Symbol "N") (Integer 2),
                        Integer 1)];
     Memlet.dynamic := dynamic; Memlet.num_accesses := 1 |}.

(** A map [m] with entry [u], tasklet [u+1], exit [u+2] writing the access
    node [out]. *)
Definition map_nodes (u : nat) (m : string) (out : Node) : list Node :=
  [MapEntry u m; Tasklet (u + 1) m; MapExit (u + 2) m; out].

Definition map_edges (u : nat) (m d : string) (dynamic : bool) (out : Node)
    : list Edge :=
  [{| src := MapEntry u m; src_conn := None; dst := Tasklet (u + 1) m;
      dst_conn := None; data := memlet_of d false |};
   {| src := Tasklet (u + 1) m; src_conn := Some "__out";
      dst := MapExit (u + 2) m; dst_conn := Some "IN_out";
      data := memlet_of d dynamic |};
   {| src := MapExit (u + 2) m; src_conn := Some "OUT_out"; dst := out;
      dst_conn := None; data := memlet_of d false |}].

(** Two top-level maps, one writing the host array [A], one the device
    array [B]. *)
Definition two_maps : SDFG :=
  mkSDFG 0 "two_maps"
    [("A", array_in Data.Array StorageType.CPU_Heap);
     ("B", array_in Data.Array StorageType.GPU_Global)]
    [mkStateGraph 1 "s"
       (map_nodes 10 "m1" (AccessNode 13 "A") ++ map_nodes 20 "m2" (AccessNode 23 "B"))
       (map_edges 10 "m1" "A" false (AccessNode 13 "A")
        ++ map_edges 20 "m2" "B" false (AccessNode 23 "B"))].

(** Three top-level maps, writing a view, the diagnostic array, and an
    array through a dynamic memlet. *)
Definition only_excluded : SDFG :=
  mkSDFG 0 "only_excluded"
    [("V", array_in Data.View StorageType.CPU_Heap);
     ("diss_estd", array_in Data.Array StorageType.CPU_Heap);
     ("C", array_in Data.Array StorageType.CPU_Heap)]
    [mkStateGraph 1 "s"
       (map_nodes 10 "m1" (AccessNode 13 "V")
        ++ map_nodes 20 "m2" (AccessNode 23 "diss_estd")
        ++ map_nodes 30 "m3" (AccessNode 33 "C"))
       (map_edges 10 "m1" "V" false (AccessNode 13 "V")
        ++ map_edges 20 "m2" "diss_estd" false (AccessNode 23 "diss_estd")
        ++ map_edges 30 "m3" "C" true (AccessNode 33 "C"))].

(** A map [m1] whose body is a nested SDFG that holds the map [m2]: [m1]
    writes [A] of the root, [m2] writes [B] of the nested SDFG. *)
Definition kernel : SDFG :=
  mkSDFG 5 "kernel"
    [("B", array_in Data.Array StorageType.CPU_Heap)]
    [mkStateGraph 6 "body"
       (map_nodes 20 "m2" (AccessNode 23 "B"))
       (map_edges 20 "m2" "B" false (AccessNode 23 "B"))].

Definition nested_maps : SDFG :=
  mkSDFG 0 "nested_maps"
    [("A", array_in Data.Array StorageType.CPU_Heap)]
    [mkStateGraph 1 "s"
       [MapEntry 10 "m1"; NestedSDFG 11 kernel; MapExit 12 "m1"; AccessNode 13 "A"]
       [{| src := MapEntry 10 "m1"; src_conn := None; dst := NestedSDFG 11 kernel;
           dst_conn := None; data := memlet_of "A" false |};
        {| src := NestedSDFG 11 kernel; src_conn := Some "B";
           dst := MapExit 12 "m1"; dst_conn := Some "IN_out";
           data := memlet_of "A" false |};
        {| src := MapExit 12 "m1"; src_conn := Some "OUT_out";
           dst := AccessNode 13 "A"; dst_conn := None;
           data := memlet_of "A" false |}]].

(** The library's answer on [nested_maps]: a node of the root has no parent
    map, a node of the nested SDFG lies in [m1]. *)
Definition nested_parent_map (state : SDFGState) (_ : Node)
    : option (Node * SDFGState) :=
  if bool_decide (sdfg_uid (parent state) = sdfg_uid nested_maps) then None
  else match states nested_maps with
       | g :: _ => Some (MapEntry 10 "m1", {| parent := nested_maps; graph := g |})
       | [] => None
       end.

Definition nested_checker (sdfg : SDFG) : result (list Utils.MappedTasklet * string) :=
  Utils.NaN_checker nested_parent_map flat_exit_node flat_memlet_path no_view_node
    flat_new_id sdfg.

End CheckerSpec.

(** ** For [DaCeProgress] *)

Module ProgressSpec.

(** A clock that advances ten units per reading. *)
Definition ten_per_read (k : nat) : Z := 10 * Z.of_nat k.

(** A build phase that prints one line, reads the clock twice and fails. *)
Definition failing_phase (w : Utils.World) : result unit * Utils.World :=
  (Raise (RuntimeError "compilation failed"),
   {| Utils.stdout := Utils.stdout w ++ ["compiling"];
      Utils.clock_reads := Utils.clock_reads w + 2 |}).

End ProgressSpec.

(** ** utils.py: the text of the memory report *)

Module Report.

Definition nl : string := String (Ascii.ascii_of_nat 10) "".
Definition tab : string := String (Ascii.ascii_of_nat 9) "".

(** [str(storage)] of a member of [dace.StorageType] *)
Definition storage_str (storage : StorageType.t) : string :=
  "StorageType." +:+
  match storage with
  | StorageType.Default => "Default"
  | StorageType.Register => "Register"
  | StorageType.CPU_Pinned => "CPU_Pinned"
  | StorageType.CPU_Heap => "CPU_Heap"
  | StorageType.CPU_ThreadLocal => "CPU_ThreadLocal"
  | StorageType.GPU_Global => "GPU_Global"
  | StorageType.GPU_Shared => "GPU_Shared"
  | StorageType.FPGA_Global => "FPGA_Global"
  | StorageType.FPGA_Local => "FPGA_Local"
  | StorageType.FPGA_Registers => "FPGA_Registers"
  | StorageType.FPGA_ShiftRegister => "FPGA_ShiftRegister"
  | StorageType.SVE_Register => "SVE_Register"
  end.

Section Render.

(** [f"{float(n / (1024 * 1024)):.2f}"] of a byte count [n] stays abstract.
    The float made from a byte count is zero exactly when the count is, and
    positive exactly when the count is, which is all the tests of line 113
    look at. *)
Variable fmt_mb : Z → string.

Definition mark (flag : bool) : string :=
  if flag then "     X     " else "           ".

(** Lines 124-131: the row of one array. *)
Definition detail_row (detail : ArrayReport.t) : string :=
  " " +:+ mark (ArrayReport.referenced detail) +:+ tab
  +:+ mark (ArrayReport.transient detail)
  +:+ tab +:+ "   " +:+ fmt_mb (ArrayReport.total_size_in_bytes detail)
  +:+ tab +:+ "   " +:+ ArrayReport.name detail +:+ nl.

(** Lines 110-131: the body of the loop over [allocations.items()]. *)
Definition render_storage (detail_report : bool) (report : string)
    (storage : StorageType.t) (allocs : StorageReport.t) : string :=
  if negb (StorageReport.referenced_in_bytes allocs =? 0)%Z
     || (0 <? StorageReport.top_level_in_bytes allocs)%Z
  then
    let report :=
      report +:+ storage_str storage +:+ ":" +:+ nl
      +:+ "  Alloc ref " +:+ fmt_mb (StorageReport.referenced_in_bytes allocs)
      +:+ " mb" +:+ nl
      +:+ "  Alloc unref " +:+ fmt_mb (StorageReport.unreferenced_in_bytes allocs)
      +:+ " mb" +:+ nl
      +:+ "  Top lvl alloc: " +:+ fmt_mb (StorageReport.top_level_in_bytes allocs)
      +:+ "mb" +:+ nl in
    if detail_report then
      let report := report +:+ nl in
      let report :=
        report +:+ "  Referenced" +:+ tab +:+ "Transient" +:+ tab
        +:+ "Total size(mb)" +:+ tab +:+ "Name" +:+ nl in
      foldl (λ report detail, report +:+ detail_row detail) report
            (StorageReport.details allocs)
    else report
  else report.

(** [count_memory(sdfg, detail_report)]: the text built from the
    allocations, the storage types taken in the order they were entered. *)
Definition count_memory (sdfg : SDFG) (detail_report : bool) : string :=
  let allocations := Utils.count_memory sdfg in
  let report := sdfg_name sdfg +:+ ":" +:+ nl in
  foldl (λ report storage,
           match allocations !! storage with
           | Some allocs => render_storage detail_report report storage allocs
           | None => report
           end) report StorageType.members.

End Render.

End Report.

(** ** global_config.py *)

Module GlobalConfig.

(** ASCII letters and their case, as [str.title] uses them. *)
Definition is_upper (c : Ascii.ascii) : bool :=
  (65 <=? Ascii.nat_of_ascii c)%nat && (Ascii.nat_of_ascii c <=? 90)%nat.

Definition is_lower (c : Ascii.ascii) : bool :=
  (97 <=? Ascii.nat_of_ascii c)%nat && (Ascii.nat_of_ascii c <=? 122)%nat.

Definition is_cased (c : Ascii.ascii) : bool := is_upper c || is_lower c.

Definition to_upper (c : Ascii.ascii) : Ascii.ascii :=
  if is_lower c then Ascii.ascii_of_nat (Ascii.nat_of_ascii c - 32) else c.

Definition to_lower (c : Ascii.ascii) : Ascii.ascii :=
  if is_upper c then Ascii.ascii_of_nat (Ascii.nat_of_ascii c + 32) else c.

(** [s.title()] on ASCII text: a letter that follows a letter is put in
    lower case, any other letter in upper case.  Characters outside ASCII
    are kept and taken as uncased. *)
Fixpoint title_from (previous_is_cased : bool) (s : string) : string :=
  match s with
  | EmptyString => EmptyString
  | String c rest =>
      String (if previous_is_cased then to_lower c else to_upper c)
             (title_from (is_cased c) rest)
  end.

Definition title (s : string) : string := title_from false s.

Definition getenv_bool (environ : gmap string string) (name dflt : string) : bool :=
  let indicator := title (getenv environ name dflt) in
  bool_decide (indicator = "True").

Section Globals.

Variable CubedSpherePartitioner : Type.

(** The module globals, the memo of [get_validate_args] kept by
    [functools.lru_cache], and what has been printed. *)
Record Globals : Type := {
  _BACKEND : option string;
  _REBUILD : bool;
  _VALIDATE_ARGS : bool;
  _PARTITIONER : option CubedSpherePartitioner;
  get_validate_args_cache : option bool;
  stdout : list string;
}.

(** The globals when the module has been imported. *)
Definition imported (environ : gmap string string) : Globals :=
  {| _BACKEND := None;
     _REBUILD := getenv_bool environ "FV3_STENCIL_REBUILD_FLAG" "False";
     _VALIDATE_ARGS := true;
     _PARTITIONER := None;
     get_validate_args_cache := None;
     stdout := [] |}.

Definition set_backend (new_backend : string) (g : Globals) : Globals :=
  {| _BACKEND := Some new_backend; _REBUILD := _REBUILD g;
     _VALIDATE_ARGS := _VALIDATE_ARGS g; _PARTITIONER := _PARTITIONER g;
     get_validate_args_cache := get_validate_args_cache g; stdout := stdout g |}.

Definition get_backend (g : Globals) : option string := _BACKEND g.

Definition set_rebuild (flag : bool) (g : Globals) : Globals :=
  {| _BACKEND := _BACKEND g; _REBUILD := flag;
     _VALIDATE_ARGS := _VALIDATE_ARGS g; _PARTITIONER := _PARTITIONER g;
     get_validate_args_cache := get_validate_args_cache g; stdout := stdout g |}.

Definition get_rebuild (g : Globals) : bool := _REBUILD g.

Definition set_validate_args (new_validate_args : bool) (g : Globals) : Globals :=
  {| _BACKEND := _BACKEND g; _REBUILD := _REBUILD g;
     _VALIDATE_ARGS := new_validate_args; _PARTITIONER := _PARTITIONER g;
     get_validate_args_cache := get_validate_args_cache g; stdout := stdout g |}.

(** [get_validate_args] under [lru_cache(maxsize=None)]: the body runs on
    the first call only, later calls answer from the memo. *)
Definition get_validate_args (g : Globals) : bool * Globals :=
  match get_validate_args_cache g with
  | Some answer => (answer, g)
  | None =>
      (_VALIDATE_ARGS g,
       {| _BACKEND := _BACKEND g; _REBUILD := _REBUILD g;
          _VALIDATE_ARGS := _VALIDATE_ARGS g; _PARTITIONER := _PARTITIONER g;
          get_validate_args_cache := Some (_VALIDATE_ARGS g); stdout := stdout g |})
  end.

Definition get_partitioner (g : Globals) : option CubedSpherePartitioner :=
  _PARTITIONER g.

Definition print (line : string) (g : Globals) : Globals :=
  {| _BACKEND := _BACKEND g; _REBUILD := _REBUILD g;
     _VALIDATE_ARGS := _VALIDATE_ARGS g; _PARTITIONER := _PARTITIONER g;
     get_validate_args_cache := get_validate_args_cache g;
     stdout := stdout g ++ [line] |}.

Definition set_partitioner (partitioner : option CubedSpherePartitioner)
    (g : Globals) : Globals :=
  let g := match _PARTITIONER g with
           | Some _ => print "re-setting the partitioner, why is that?" g
           | None => g
           end in
  {| _BACKEND := _BACKEND g; _REBUILD := _REBUILD g;
     _VALIDATE_ARGS := _VALIDATE_ARGS g; _PARTITIONER := partitioner;
     get_validate_args_cache := get_validate_args_cache g; stdout := stdout g |}.

Definition set_partitioner_once (partitioner : option CubedSpherePartitioner)
    (g : Globals) : Globals :=
  match _PARTITIONER g with
  | None =>
      {| _BACKEND := _BACKEND g; _REBUILD := _REBUILD g;
         _VALIDATE_ARGS := _VALIDATE_ARGS g; _PARTITIONER := partitioner;
         get_validate_args_cache := get_validate_args_cache g; stdout := stdout g |}
  | Some _ => g
  end.

End Globals.

Arguments _BACKEND {CubedSpherePartitioner} _.
Arguments _REBUILD {CubedSpherePartitioner} _.
Arguments _VALIDATE_ARGS {CubedSpherePartitioner} _.
Arguments _PARTITIONER {CubedSpherePartitioner} _.
Arguments get_validate_args_cache {CubedSpherePartitioner} _.
Arguments stdout {CubedSpherePartitioner} _.
Arguments set_backend {CubedSpherePartitioner} _ _.
Arguments get_backend {CubedSpherePartitioner} _.
Arguments set_rebuild {CubedSpherePartitioner} _ _.
Arguments get_rebuild {CubedSpherePartitioner} _.
Arguments set_validate_args {CubedSpherePartitioner} _ _.
Arguments get_validate_args {CubedSpherePartitioner} _.
Arguments get_partitioner {CubedSpherePartitioner} _.
Arguments set_partitioner {CubedSpherePartitioner} _ _.
Arguments set_partitioner_once {CubedSpherePartitioner} _ _.

End GlobalConfig.

(** ** For the whole report of [count_memory] *)

Module AccountSpec.
Import MemorySpec.

(** An enumerated array enters the report when the root owns it or it is
    transient. *)
Definition accounted (sdfg : SDFG) (entry : Entry) : bool :=
  owned_by sdfg entry || Data.transient entry.2.

Definition referenced_entry (entry : Entry) : bool :=
  Utils.is_ref entry.1.1 entry.1.2.

Definition row_of (sdfg : SDFG) (entry : Entry) : ArrayReport.t :=
  {| ArrayReport.name := entry.1.2;
     ArrayReport.total_size_in_bytes := size_in_bytes entry.2;
     ArrayReport.referenced := referenced_entry entry;
     ArrayReport.transient := Data.transient entry.2;
     ArrayReport.top_level := owned_by sdfg entry |}.

(** A report grown by some bytes per bucket and some detail rows. *)
Definition extend (r : StorageReport.t) (ref unref top : Z)
    (rows : list ArrayReport.t) : StorageReport.t :=
  {| StorageReport.name := StorageReport.name r;
     StorageReport.referenced_in_bytes := StorageReport.referenced_in_bytes r + ref;
     StorageReport.unreferenced_in_bytes := StorageReport.unreferenced_in_bytes r + unref;
     StorageReport.top_level_in_bytes := StorageReport.top_level_in_bytes r + top;
     StorageReport.details := StorageReport.details r ++ rows |}.

Definition referenced_bytes (sdfg : SDFG) (storage : StorageType.t)
    (entries : list Entry) : Z :=
  bytes_of (λ entry, in_class storage entry && accounted sdfg entry
                     && referenced_entry entry) entries.

Definition unreferenced_bytes (sdfg : SDFG) (storage : StorageType.t)
    (entries : list Entry) : Z :=
  bytes_of (λ entry, in_class storage entry && accounted sdfg entry
                     && negb (referenced_entry entry)) entries.

Definition top_level_bytes (sdfg : SDFG) (storage : StorageType.t)
    (entries : list Entry) : Z :=
  bytes_of (λ entry, in_class storage entry && owned_by sdfg entry) entries.

(** Transient arrays of a storage class that the root does not own. *)
Definition nested_transient_bytes (sdfg : SDFG) (storage : StorageType.t)
    (entries : list Entry) : Z :=
  bytes_of (λ entry, in_class storage entry && negb (owned_by sdfg entry)
                     && Data.transient entry.2) entries.

Definition rows (sdfg : SDFG) (storage : StorageType.t) (entries : list Entry)
    : list ArrayReport.t :=
  map (row_of sdfg)
      (List.filter (λ entry, in_class storage entry && accounted sdfg entry) entries).

(** The report of a storage class, read off the enumeration of arrays. *)
Definition expected_report (sdfg : SDFG) (storage : StorageType.t) : StorageReport.t :=
  {| StorageReport.name := storage;
     StorageReport.referenced_in_bytes :=
       referenced_bytes sdfg storage (arrays_recursive sdfg);
     StorageReport.unreferenced_in_bytes :=
       unreferenced_bytes sdfg storage (arrays_recursive sdfg);
     StorageReport.top_level_in_bytes :=
       top_level_bytes sdfg storage (arrays_recursive sdfg);
     StorageReport.details := rows sdfg storage (arrays_recursive sdfg) |}.

End AccountSpec.

(** ** For the scope of [is_ref] *)

Module ScopeSpec.

(** The SDFGs nested in [sd], at any depth. *)
Fixpoint nested_sdfgs (sd : SDFG) : list SDFG :=
  match sd with
  | mkSDFG _ _ _ sts =>
      flat_map (λ g,
        match g with
        | mkStateGraph _ _ ns _ =>
            flat_map (λ n,
              match n with
              | NestedSDFG _ inner => inner :: nested_sdfgs inner
              | _ => []
              end) ns
        end) sts
  end.

(** An access node of one of the states of [sd] itself names [aname]. *)
Definition accessed_in_own_states (sd : SDFG) (aname : string) : Prop :=
  ∃ g u, g ∈ states sd ∧ AccessNode u aname ∈ nodes g.

(** No nested SDFG is the object [sd] itself. *)
Definition not_self_nested (sd : SDFG) : Prop :=
  ∀ inner, inner ∈ nested_sdfgs sd → sdfg_uid inner ≠ sdfg_uid sd.

End ScopeSpec.

(** ** For the ranges of an inserted check *)

Module RangeSpec.

Definition evaluate_range (t : Expr * Expr * Expr) : Expr * Expr * Expr :=
  (Utils.evaluate t.1.1, Utils.evaluate t.1.2, Utils.evaluate t.2).

(** The index string over all dimensions of an array. *)
Definition all_indices (arr : Data.t) : string :=
  String.concat ", " (map Utils.index_name (seq 0 (length (Data.shape arr)))).

(** The checking map [call] iterates over the subset written through the
    edge of [c], one distinct variable per dimension of the subset, and its
    tasklet reads and writes the destination array, the output going to a
    copy of the destination node. *)
Definition covers (c : SDFGState * Edge) (call : Utils.MappedTasklet) : Prop :=
  map fst (Utils.map_ranges call)
  = map Utils.index_name (seq 0 (length (Memlet.subset (data c.2))))
  ∧ map snd (Utils.map_ranges call) = map evaluate_range (Memlet.subset (data c.2))
  ∧ NoDup (map fst (Utils.map_ranges call))
  ∧ ∃ u u' d arr,
      dst c.2 = AccessNode u d
      ∧ arrays_getitem (arrays (parent c.1)) d = Ok arr
      ∧ Utils.inputs call
        = [("__inp", {| Memlet.simple_data := d;
                        Memlet.simple_subset := all_indices arr;
                        Memlet.simple_num_accesses := None |})]
      ∧ Utils.outputs call
        = [("__out", {| Memlet.simple_data := d;
                        Memlet.simple_subset := all_indices arr;
                        Memlet.simple_num_accesses := Some (-1) |})]
      ∧ Utils.output_nodes call = [(d, AccessNode u' d)].

End RangeSpec.

(** ** For the text of the memory report *)

Module ReportSpec.
Import MemorySpec AccountSpec.

Definition concat_all (parts : list string) : string :=
  foldr String.append "" parts.

(** A storage class appears in the text when it holds referenced bytes or
    a positive amount of top-level bytes. *)
Definition printed (sdfg : SDFG) (storage : StorageType.t) : bool :=
  negb (referenced_bytes sdfg storage (arrays_recursive sdfg) =? 0)%Z
  || (0 <? top_level_bytes sdfg storage (arrays_recursive sdfg))%Z.

Section Text.
Variable fmt_mb : Z → string.

Definition totals_text (storage : StorageType.t) (allocs : StorageReport.t) : string :=
  Report.storage_str storage +:+ ":" +:+ Report.nl
  +:+ "  Alloc ref " +:+ fmt_mb (StorageReport.referenced_in_bytes allocs)
  +:+ " mb" +:+ Report.nl
  +:+ "  Alloc unref " +:+ fmt_mb (StorageReport.unreferenced_in_bytes allocs)
  +:+ " mb" +:+ Report.nl
  +:+ "  Top lvl alloc: " +:+ fmt_mb (StorageReport.top_level_in_bytes allocs)
  +:+ "mb" +:+ Report.nl.

Definition table_head : string :=
  "  Referenced" +:+ Report.tab +:+ "Transient" +:+ Report.tab
  +:+ "Total size(mb)" +:+ Report.tab +:+ "Name" +:+ Report.nl.

(** The block of one storage class: its totals, and with [detail_report]
    an empty line, the table head and one row per accounted array. *)
Definition section_text (detail_report : bool) (sdfg : SDFG)
    (storage : StorageType.t) : string :=
  totals_text storage (expected_report sdfg storage)
  +:+ (if detail_report
       then Report.nl +:+ table_head
            +:+ concat_all (map (Report.detail_row fmt_mb)
                                (rows sdfg storage (arrays_recursive sdfg)))
       else "").

End Text.

(** A graph whose only array is a transient of a nested SDFG, kept on the
    device and never accessed. *)
Definition dead_on_device : SDFG :=
  mkSDFG 0 "dead_on_device" []
    [mkStateGraph 10 "call"
       [NestedSDFG 11
          (mkSDFG 1 "kernel"
             [("scratch",
               {| Data.kind := Data.Array; Data.shape := [Integer 1024];
                  Data.total_size := 1024; Data.dtype_bytes := 8;
                  Data.storage := StorageType.GPU_Global;
                  Data.transient := true |})]
             [mkStateGraph 12 "body" [] []])]
       []].

End ReportSpec.

(** ** For global_config.py *)

Module GlobalConfigSpec.
Import GlobalConfig.

(** [s.lower()] on ASCII text. *)
Fixpoint lower (s : string) : string :=
  match s with
  | EmptyString => EmptyString
  | String c rest => String (to_lower c) (lower rest)
  end.

Fixpoint is_ascii (s : string) : bool :=
  match s with
  | EmptyString => true
  | String c rest => (Ascii.nat_of_ascii c <? 128)%nat && is_ascii rest
  end.

(** A call of one of the functions of the module. *)
Inductive Op (P : Type) : Type :=
| SetBackend (new_backend : string)
| GetBackend
| SetRebuild (flag : bool)
| GetRebuild
| SetValidateArgs (new_validate_args : bool)
| GetValidateArgs
| GetPartitioner
| SetPartitioner (partitioner : option P)
| SetPartitionerOnce (partitioner : option P).
Arguments SetBackend {P} _.
Arguments GetBackend {P}.
Arguments SetRebuild {P} _.
Arguments GetRebuild {P}.
Arguments SetValidateArgs {P} _.
Arguments GetValidateArgs {P}.
Arguments GetPartitioner {P}.
Arguments SetPartitioner {P} _.
Arguments SetPartitionerOnce {P} _.

(** The globals after one call. *)
Definition step {P : Type} (g : Globals P) (op : Op P) : Globals P :=
  match op with
  | SetBackend b => set_backend b g
  | SetRebuild f => set_rebuild f g
  | SetValidateArgs v => set_validate_args v g
  | GetValidateArgs => (get_validate_args g).2
  | SetPartitioner p => set_partitioner p g
  | SetPartitionerOnce p => set_partitioner_once p g
  | GetBackend | GetRebuild | GetPartitioner => g
  end.

(** The globals after a sequence of calls. *)
Definition run {P : Type} (ops : list (Op P)) (g : Globals P) : Globals P :=
  foldl step g ops.

Definition backend_written {P : Type} (op : Op P) : option string :=
  match op with SetBackend b => Some b | _ => None end.

Definition rebuild_written {P : Type} (op : Op P) : option bool :=
  match op with SetRebuild f => Some f | _ => None end.

Definition is_set_partitioner {P : Type} (op : Op P) : bool :=
  match op with SetPartitioner _ => true | _ => false end.

End GlobalConfigSpec.

(** * Theorems *)

(** ** Strings *)

Lemma prefix_refl (s : string) : String.prefix s s = true.
Proof.
  induction s as [|a s IH]; simpl; [reflexivity|].
  destruct (Ascii.ascii_dec a a); [exact IH | congruence].
Qed.

Lemma str_in_refl (s : string) : str_in s s = true.
Proof. destruct s; cbn [str_in]; [reflexivity|]. rewrite prefix_refl. reflexivity. Qed.

Lemma str_in_app (p s t : string) : str_in s t = true → str_in s (p +:+ t) = true.
Proof.
  intros Ht. induction p as [|a p IH]; [exact Ht|].
  change (String a p +:+ t) with (String a (p +:+ t)). cbn [str_in].
  rewrite IH. apply orb_true_r.
Qed.

(** ** The constructor of [DaceConfig] *)

Section ConfigTheorems.
Import DaceConfig ConfigSpec.
Context {Partitioner : Type}.
Variable read_target_rank : Z → Partitioner → Attrs → string → Z.
Variable root_path : string.

Lemma write_condition_decide (o : DaCeOrchestration) (r s : Z) :
  (bool_decide (o = Build) || bool_decide (o = BuildAndRun))
    && bool_decide (r = 0) && bool_decide (s > 1)
  = bool_decide ((o = Build ∨ o = BuildAndRun) ∧ r = 0 ∧ s > 1).
Proof.
  repeat case_bool_decide; simpl; try reflexivity; exfalso; intuition congruence.
Qed.

Lemma raise_condition_decide (o : DaCeOrchestration) (backend : string) :
  bool_decide (o ≠ Python) && negb (str_in "dace" backend)
  = bool_decide (o ≠ Python ∧ str_in "dace" backend = false).
Proof.
  destruct (str_in "dace" backend); repeat case_bool_decide; simpl;
    try reflexivity; exfalso; intuition congruence.
Qed.

(** A run of the constructor whose mode resolves: the result and the calls
    it has made by then. *)
Lemma init_run environ communicator backend orchestration o tr :
  resolve_orchestration orchestration environ = Ok o →
  __init__ read_target_rank root_path environ communicator backend orchestration tr =
  (if decide (o ≠ Python ∧ str_in "dace" backend = false)
   then Raise (RuntimeError (error_message backend))
   else Ok (constructed read_target_rank root_path communicator backend o),
   tr ++ reads root_path communicator backend o
      ++ [set_distributed_caches_call
            (constructed read_target_rank root_path communicator backend o)]
      ++ writes communicator o).
Proof.
  intros Hres. unfold __init__, mbind, M_bind, lift, call, mret, M_ret, raise.
  rewrite Hres.
  destruct communicator as [c|]; cbn [reads writes constructed writes_descriptor];
    unfold get_int, get_orchestration, get_str, getattr, attrs_before_read,
      base_attrs, layout_filepath;
    simplify_map_eq.
  - rewrite write_condition_decide, raise_condition_decide.
    repeat case_bool_decide; repeat case_decide; try contradiction;
      rewrite <- ?app_assoc; reflexivity.
  - rewrite andb_false_r, raise_condition_decide.
    case_bool_decide; case_decide; try contradiction;
      rewrite <- ?app_assoc; reflexivity.
Qed.

(** A mode that does not resolve stops the constructor before any call. *)
Lemma init_unresolved environ communicator backend orchestration e tr :
  resolve_orchestration orchestration environ = Raise e →
  __init__ read_target_rank root_path environ communicator backend orchestration tr
  = (Raise e, tr).
Proof.
  intros Hres. unfold __init__, mbind, M_bind, lift. rewrite Hres. reflexivity.
Qed.

(** C1.  When the mode resolves to [o], construction raises exactly when
    [o] is not [Python] and the backend name does not contain "dace"; the
    exception is then the [RuntimeError] whose message ends in the backend
    name.  With "dace" in the backend name construction succeeds whatever
    the mode. *)
Theorem configuration_error_iff environ communicator backend orchestration o tr :
  resolve_orchestration orchestration environ = Ok o →
  let r := (__init__ read_target_rank root_path environ communicator backend
              orchestration tr).1 in
  (is_Raise r ↔ o ≠ Python ∧ str_in "dace" backend = false)
  ∧ (is_Raise r → r = Raise (RuntimeError (error_message backend)))
  ∧ str_in backend (error_message backend) = true
  ∧ (str_in "dace" backend = true → is_Ok r).
Proof.
  intros Hres r. subst r. rewrite (init_run _ _ _ _ _ _ Hres). cbn [fst].
  assert (Hname : str_in backend (error_message backend) = true).
  { unfold error_message. do 2 apply str_in_app. apply str_in_refl. }
  case_decide as H; simpl.
  - split; [tauto|]. split; [reflexivity|]. split; [exact Hname|].
    destruct H as [_ H]. congruence.
  - split; [tauto|]. split; [tauto|]. split; [exact Hname|]. tauto.
Qed.

(** C2, as the code has it.  With the mode argument omitted the mode comes
    from [FV3_DACEMODE]: unset gives [Python], a member name gives that
    member, and any other value raises [KeyError] and ends construction
    before any call is made. *)
Theorem mode_from_environment environ :
  (environ !! "FV3_DACEMODE" = None → resolve_orchestration None environ = Ok Python)
  ∧ (∀ o, environ !! "FV3_DACEMODE" = Some (member_name o) →
          resolve_orchestration None environ = Ok o)
  ∧ (∀ v, environ !! "FV3_DACEMODE" = Some v → v ∉ member_names →
          resolve_orchestration None environ = Raise (KeyError v)
          ∧ ∀ communicator backend tr,
              __init__ read_target_rank root_path environ communicator backend None tr
              = (Raise (KeyError v), tr)).
Proof.
  unfold resolve_orchestration, getenv. repeat split.
  - intros ->. reflexivity.
  - intros o ->. destruct o; reflexivity.
  - rename H into Hv. rename H0 into Hnot. rewrite Hv. simpl.
    unfold DaCeOrchestration_getitem, member_names in *.
    repeat case_decide; try reflexivity; subst; exfalso; apply Hnot; set_solver.
  - intros communicator backend tr. apply init_unresolved.
    unfold resolve_orchestration, getenv. rewrite H. simpl.
    unfold DaCeOrchestration_getitem, member_names in *.
    repeat case_decide; try reflexivity; subst; exfalso; apply H0; set_solver.
Qed.

(** C3.  The trace of a construction holds a [write_decomposition] call
    exactly when there is a communicator of rank 0 with more than one rank
    and the mode resolves to [Build] or [BuildAndRun]; there is never more
    than one such call. *)
Theorem write_decomposition_iff environ communicator backend orchestration :
  let tr := (__init__ read_target_rank root_path environ communicator backend
               orchestration []).2 in
  (∀ p, write_decomposition_call p ∈ tr ↔
        ∃ c o, communicator = Some c ∧ p = partitioner c
               ∧ resolve_orchestration orchestration environ = Ok o
               ∧ rank c = 0 ∧ comm_Get_size c > 1 ∧ (o = Build ∨ o = BuildAndRun))
  ∧ (length (List.filter is_write tr) ≤ 1)%nat.
Proof.
  intros tr. subst tr.
  destruct (resolve_orchestration orchestration environ) as [o|e] eqn:Hres.
  - rewrite (init_run _ _ _ _ _ _ Hres). cbn [snd app].
    destruct communicator as [c|]; cbn [reads writes].
    + case_decide as Hw; cbn [writes_descriptor] in Hw; split.
      * intros p. split.
        -- intros Hin. exists c, o. set_unfold in Hin.
           destruct_or! Hin; try discriminate Hin; try contradiction.
           injection Hin as ->. tauto.
        -- intros (c' & o' & [= <-] & -> & [= <-] & _).
           apply list_elem_of_In. simpl. tauto.
      * simpl. lia.
      * intros p. split.
        -- intros Hin. set_unfold in Hin. destruct_or! Hin; (discriminate Hin || contradiction).
        -- intros (c' & o' & [= <-] & -> & [= <-] & H0 & H1 & Ho). tauto.
      * simpl. lia.
    + split; [|simpl; lia]. intros p. split.
      * intros Hin. set_unfold in Hin. destruct_or! Hin; (discriminate Hin || contradiction).
      * intros (c' & o' & [=] & _).
  - rewrite (init_unresolved _ _ _ _ _ _ Hres). cbn [snd]. split; [|simpl; lia].
    intros p. split.
    + intros Hin. set_unfold in Hin. contradiction.
    + intros (c' & o' & _ & _ & [=] & _).
Qed.

(** C9.  Whatever the arguments, the object a successful construction
    returns has no [_communicator] attribute, so [get_communicator] raises
    [AttributeError]. *)
Theorem get_communicator_fails environ communicator backend orchestration tr self tr' :
  __init__ read_target_rank root_path environ communicator backend orchestration tr
  = (Ok self, tr') →
  get_communicator self = Raise (AttributeError "_communicator").
Proof.
  intros Hinit.
  destruct (resolve_orchestration orchestration environ) as [o|e] eqn:Hres.
  - rewrite (init_run _ _ _ _ _ _ Hres) in Hinit.
    case_decide; [discriminate Hinit|]. injection Hinit as <- _.
    unfold get_communicator, getattr.
    destruct communicator; unfold constructed, attrs_before_read, base_attrs;
      simplify_map_eq; reflexivity.
  - rewrite (init_unresolved _ _ _ _ _ _ Hres) in Hinit. discriminate Hinit.
Qed.

(** C10.  A construction that fails on the backend check has by then made
    the [set_distributed_caches] call, and for rank 0 of several ranks in
    mode [Build] or [BuildAndRun] also the [write_decomposition] call: the
    trace handed back with the exception ends in them. *)
Theorem construction_not_atomic environ communicator backend orchestration o :
  resolve_orchestration orchestration environ = Ok o →
  o ≠ Python →
  str_in "dace" backend = false →
  ∃ self before,
    (∀ ev, ev ∈ before → is_write ev = false)
    ∧ ((∃ c, communicator = Some c ∧ rank c = 0 ∧ comm_Get_size c > 1
             ∧ (o = Build ∨ o = BuildAndRun)
             ∧ __init__ read_target_rank root_path environ communicator backend
                 orchestration []
               = (Raise (RuntimeError (error_message backend)),
                  before ++ [set_distributed_caches_call self;
                             write_decomposition_call (partitioner c)]))
       ∨ (¬ writes_descriptor communicator o
          ∧ __init__ read_target_rank root_path environ communicator backend
              orchestration []
            = (Raise (RuntimeError (error_message backend)),
               before ++ [set_distributed_caches_call self]))).
Proof.
  intros Hres Ho Hb.
  exists (constructed read_target_rank root_path communicator backend o),
         (reads root_path communicator backend o).
  split.
  { intros ev Hin. destruct communicator; cbn [reads] in Hin; set_unfold in Hin.
    - destruct Hin as [->|[]]. reflexivity.
    - contradiction. }
  rewrite (init_run _ _ _ _ _ _ Hres). rewrite decide_True by tauto. cbn [app].
  destruct communicator as [c|]; cbn [writes].
  - case_decide as Hw.
    + left. exists c. cbn [writes_descriptor] in Hw. repeat split; tauto.
    + right. split; [exact Hw|]. reflexivity.
  - right. split; [simpl; tauto|]. reflexivity.
Qed.

End ConfigTheorems.

(** *** The constructor on concrete arguments *)

Section ConfigExamples.
Import DaceConfig ConfigSpec.

(** Mode [Build] on the backend "numpy" is refused. *)
Lemma configuration_error_iff_witness :
  let r := (__init__ no_ranks "/cache" ∅ None "numpy" (Some Build) []).1 in
  (is_Raise r ↔ Build ≠ Python ∧ str_in "dace" "numpy" = false)
  ∧ (is_Raise r → r = Raise (RuntimeError (error_message "numpy")))
  ∧ str_in "numpy" (error_message "numpy") = true
  ∧ (str_in "dace" "numpy" = true → is_Ok r).
Proof.
  apply (configuration_error_iff no_ranks "/cache" ∅ None "numpy" (Some Build) Build []).
  reflexivity.
Defined.

(** C2 as stated fails: "Debug" is not a member name, and with
    [FV3_DACEMODE=Debug] the mode does not resolve to [Python] but raises
    [KeyError]. *)
Lemma unrecognized_mode_raises :
  let environ : gmap string string := {["FV3_DACEMODE" := "Debug"]} in
  ("Debug" ∉ member_names)
  ∧ resolve_orchestration None environ = Raise (KeyError "Debug")
  ∧ resolve_orchestration None environ ≠ Ok Python
  ∧ (__init__ no_ranks "/cache" environ None "gtc:dace" None []).1
    = Raise (KeyError "Debug").
Proof.
  cbv zeta. split; [by apply (bool_decide_unpack _)|].
  split; [reflexivity|]. split; [discriminate|reflexivity].
Qed.

Lemma mode_from_environment_witness :
  resolve_orchestration None {["FV3_DACEMODE" := "Debug"]} = Raise (KeyError "Debug")
  ∧ ∀ communicator backend tr,
      __init__ no_ranks "/cache" {["FV3_DACEMODE" := "Debug"]} communicator backend None tr
      = (Raise (KeyError "Debug"), tr).
Proof.
  apply (mode_from_environment no_ranks "/cache" {["FV3_DACEMODE" := "Debug"]}).
  - reflexivity.
  - by apply (bool_decide_unpack _).
Defined.

(** Four ranks in mode [BuildAndRun]: rank 0 writes the descriptor once. *)
Example write_decomposition_rank0_of_4 :
  List.filter is_write
    (__init__ no_ranks "/cache" ∅ (Some rank0_of_4) "gtc:dace" (Some BuildAndRun) []).2
  = [write_decomposition_call tt].
Proof. reflexivity. Qed.

Lemma get_communicator_fails_witness :
  get_communicator (constructed no_ranks "/cache" (Some rank0_of_4) "gtc:dace" BuildAndRun)
  = Raise (AttributeError "_communicator").
Proof.
  apply (get_communicator_fails no_ranks "/cache" ∅ (Some rank0_of_4) "gtc:dace"
           (Some BuildAndRun) [] _
           (reads "/cache" (Some rank0_of_4) "gtc:dace" BuildAndRun
            ++ [set_distributed_caches_call
                  (constructed no_ranks "/cache" (Some rank0_of_4) "gtc:dace" BuildAndRun)]
            ++ writes (Some rank0_of_4) BuildAndRun)).
  reflexivity.
Defined.

Lemma construction_not_atomic_witness :
  ∃ self before,
    (∀ ev, ev ∈ before → is_write ev = false)
    ∧ ((∃ c, Some rank0_of_4 = Some c ∧ rank c = 0 ∧ comm_Get_size c > 1
             ∧ (Build = Build ∨ Build = BuildAndRun)
             ∧ __init__ no_ranks "/cache" ∅ (Some rank0_of_4) "numpy" (Some Build) []
               = (Raise (RuntimeError (error_message "numpy")),
                  before ++ [set_distributed_caches_call self;
                             write_decomposition_call (partitioner c)]))
       ∨ (¬ writes_descriptor (Some rank0_of_4) Build
          ∧ __init__ no_ranks "/cache" ∅ (Some rank0_of_4) "numpy" (Some Build) []
            = (Raise (RuntimeError (error_message "numpy")),
               before ++ [set_distributed_caches_call self]))).
Proof.
  apply (construction_not_atomic no_ranks "/cache" ∅ (Some rank0_of_4) "numpy"
           (Some Build) Build).
  - reflexivity.
  - discriminate.
  - reflexivity.
Defined.

End ConfigExamples.

(** ** [count_memory] *)

Section MemoryTheorems.
Import MemorySpec AccountSpec.

Lemma is_ref_loop_true (sd : SDFG) (aname : string) (items : list Item) :
  Utils.is_ref_loop sd aname items = true ↔ referenced_in_scope sd aname items.
Proof.
  unfold referenced_in_scope. induction items as [|it items IH]; simpl.
  - split; [discriminate|]. intros (u & state & Hin & _). inversion Hin.
  - assert (Hskip : (∀ u state, it = node_item (AccessNode u aname) state →
                       sdfg_uid (parent state) ≠ sdfg_uid sd) →
            (Utils.is_ref_loop sd aname items = true ↔
             ∃ u state, node_item (AccessNode u aname) state ∈ it :: items
                        ∧ sdfg_uid (parent state) = sdfg_uid sd)).
    { intros Hno. rewrite IH.
      split; intros (u & state & Hin & Hp); exists u, state; (split; [|exact Hp]).
      - apply elem_of_cons. right. exact Hin.
      - apply elem_of_cons in Hin as [Hin|Hin]; [|exact Hin].
        symmetry in Hin. apply Hno in Hin. contradiction. }
    destruct it as [st sd'|node state]; [apply Hskip; discriminate|].
    case_bool_decide as Hpar.
    + destruct node as [u d| | | |]; try (apply Hskip; discriminate).
      case_bool_decide as Hname.
      * subst d. split; [|reflexivity]. intros _. exists u, state.
        split; [apply elem_of_cons; left; reflexivity|exact Hpar].
      * apply Hskip. intros u' state' [= -> -> ->]. contradiction.
    + apply Hskip. intros u' state' [= -> ->]. exact Hpar.
Qed.


Lemma bucket_sum_alter (f : StorageReport.t → StorageReport.t) (n : Z)
    (k st : StorageType.t) (m : Utils.Allocations) (z : Z) :
  (∀ r, total (f r) = total r + n) →
  bucket_sum m st = Some z →
  bucket_sum (alter f k m) st = Some (z + if decide (k = st) then n else 0).
Proof.
  unfold bucket_sum. intros Hf Hz. rewrite lookup_alter.
  destruct (m !! st) as [r|] eqn:Hr; [|discriminate Hz].
  simpl in Hz. injection Hz as <-.
  case_decide as Hk; simpl.
  - subst k. rewrite Hr. simpl. f_equal. apply Hf.
  - f_equal. lia.
Qed.

Lemma count_memory_step_sum (sdfg : SDFG) (m : Utils.Allocations) (entry : Entry)
    (st : StorageType.t) (z : Z) :
  bucket_sum m st = Some z →
  bucket_sum (Utils.count_memory_step sdfg m entry) st
  = Some (z + if in_class st entry && (owned_by sdfg entry || Data.transient entry.2)
              then size_in_bytes entry.2 else 0).
Proof.
  intros Hz. destruct entry as [[sd aname] arr].
  unfold Utils.count_memory_step, in_class, owned_by, size_in_bytes. cbn [fst snd].
  set (size := Data.total_size arr * Data.dtype_bytes arr).
  assert (Hdet : ∀ d r, total (StorageReport.details_append d r) = total r + 0)
    by (intros; unfold total; simpl; lia).
  assert (Htop : ∀ n r, total (StorageReport.add_top_level n r) = total r + 0)
    by (intros; unfold total; simpl; lia).
  assert (Href : ∀ n r, total (StorageReport.add_referenced n r) = total r + n)
    by (intros; unfold total; simpl; lia).
  assert (Hunref : ∀ n r, total (StorageReport.add_unreferenced n r) = total r + n)
    by (intros; unfold total; simpl; lia).
  destruct (decide (sdfg_uid sd = sdfg_uid sdfg)) as [Hroot|Hroot].
  - rewrite (bool_decide_false (sdfg_uid sd ≠ sdfg_uid sdfg)) by tauto.
    rewrite (bool_decide_true (sdfg_uid sd = sdfg_uid sdfg)) by exact Hroot.
    cbn [andb orb].
    destruct (Utils.is_ref sd aname);
      [erewrite (bucket_sum_alter _ size) by
         first [apply Href | erewrite (bucket_sum_alter _ 0) by
           first [apply Htop | erewrite (bucket_sum_alter _ 0) by
             first [apply Hdet | exact Hz]; reflexivity]; reflexivity]
      |erewrite (bucket_sum_alter _ size) by
         first [apply Hunref | erewrite (bucket_sum_alter _ 0) by
           first [apply Htop | erewrite (bucket_sum_alter _ 0) by
             first [apply Hdet | exact Hz]; reflexivity]; reflexivity]];
      f_equal; case_bool_decide; case_decide; try congruence; simpl; lia.
  - rewrite (bool_decide_true (sdfg_uid sd ≠ sdfg_uid sdfg)) by exact Hroot.
    rewrite (bool_decide_false (sdfg_uid sd = sdfg_uid sdfg)) by exact Hroot.
    cbn [andb orb]. destruct (Data.transient arr).
    + destruct (Utils.is_ref sd aname);
        [erewrite (bucket_sum_alter _ size) by
           first [apply Href | erewrite (bucket_sum_alter _ 0) by
             first [apply Hdet | exact Hz]; reflexivity]
        |erewrite (bucket_sum_alter _ size) by
           first [apply Hunref | erewrite (bucket_sum_alter _ 0) by
             first [apply Hdet | exact Hz]; reflexivity]];
        f_equal; case_bool_decide; case_decide; try congruence; simpl; lia.
    + rewrite Hz. f_equal. rewrite andb_false_r. lia.
Qed.


Lemma count_memory_fold_sum (sdfg : SDFG) (entries : list Entry)
    (m : Utils.Allocations) (st : StorageType.t) (z : Z) :
  bucket_sum m st = Some z →
  bucket_sum (foldl (Utils.count_memory_step sdfg) m entries) st
  = Some (z + bytes_of (λ entry, in_class st entry
                                 && (owned_by sdfg entry || Data.transient entry.2))
                       entries).
Proof.
  revert m z. induction entries as [|entry entries IH]; intros m z Hz; simpl.
  - rewrite Hz. f_equal. lia.
  - rewrite (IH _ _ (count_memory_step_sum sdfg m entry st z Hz)). f_equal. lia.
Qed.

Lemma initial_bucket_sum (st : StorageType.t) :
  bucket_sum Utils.initial_allocations st = Some 0.
Proof. destruct st; reflexivity. Qed.

(** C4, as the code has it.  For every graph and storage class the
    referenced and unreferenced bytes of the report add up to the byte sizes
    of the enumerated arrays of that class that are transient or owned by
    the root SDFG. *)
Theorem referenced_plus_unreferenced (sdfg : SDFG) (st : StorageType.t) :
  bucket_sum (Utils.count_memory sdfg) st = Some (accounted_bytes sdfg st).
Proof.
  unfold Utils.count_memory, accounted_bytes.
  rewrite (count_memory_fold_sum sdfg _ _ st 0 (initial_bucket_sum st)).
  f_equal.
Qed.

(** C4 as stated fails: a graph whose only array is a non-transient one at
    the root has 16 bytes in the buckets of its class and no transient
    array. *)
Lemma root_arrays_are_counted :
  bucket_sum (Utils.count_memory root_only) StorageType.CPU_Heap = Some 16
  ∧ transient_bytes root_only StorageType.CPU_Heap = 0
  ∧ bucket_sum (Utils.count_memory root_only) StorageType.CPU_Heap
    ≠ Some (transient_bytes root_only StorageType.CPU_Heap).
Proof. split; [reflexivity|]. split; [reflexivity|discriminate]. Qed.

Lemma extend_extend (r : StorageReport.t) (a b c a' b' c' : Z)
    (rs rs' : list ArrayReport.t) :
  extend (extend r a b c rs) a' b' c' rs' = extend r (a + a') (b + b') (c + c') (rs ++ rs').
Proof.
  unfold extend. simpl. f_equal; try lia. rewrite <- app_assoc. reflexivity.
Qed.

Lemma extend_nothing (r : StorageReport.t) : extend r 0 0 0 [] = r.
Proof.
  destruct r. unfold extend. simpl. f_equal; try lia. apply app_nil_r.
Qed.

(** What one pass of the loop body does to the report of the class [st]. *)
Lemma count_memory_step_report (sdfg : SDFG) (m : Utils.Allocations) (entry : Entry)
    (st : StorageType.t) (r : StorageReport.t) :
  m !! st = Some r →
  Utils.count_memory_step sdfg m entry !! st
  = Some (extend r (referenced_bytes sdfg st [entry]) (unreferenced_bytes sdfg st [entry])
                   (top_level_bytes sdfg st [entry]) (rows sdfg st [entry])).
Proof.
  intros Hr. destruct entry as [[sd aname] arr].
  unfold referenced_bytes, unreferenced_bytes, top_level_bytes, rows, bytes_of,
    row_of, accounted, referenced_entry, in_class, owned_by, size_in_bytes.
  unfold Utils.count_memory_step. cbn [fst snd foldr List.filter].
  set (size := Data.total_size arr * Data.dtype_bytes arr).
  destruct (decide (Data.storage arr = st)) as [Hst|Hst].
  - rewrite (bool_decide_true (Data.storage arr = st)) by exact Hst. subst st.
    destruct (decide (sdfg_uid sd = sdfg_uid sdfg)) as [Hroot|Hroot].
    + rewrite (bool_decide_false (sdfg_uid sd ≠ sdfg_uid sdfg)) by tauto.
      rewrite (bool_decide_true (sdfg_uid sd = sdfg_uid sdfg)) by exact Hroot.
      cbn [andb orb negb map fst snd].
      rewrite (bool_decide_true (sdfg_uid sd = sdfg_uid sdfg)) by exact Hroot.
      destruct (Utils.is_ref sd aname); cbn [andb orb negb];
        rewrite !lookup_alter_eq, Hr; simpl; f_equal;
        unfold extend, StorageReport.add_referenced, StorageReport.add_unreferenced,
          StorageReport.add_top_level, StorageReport.details_append; simpl;
        f_equal; first [lia | reflexivity].
    + rewrite (bool_decide_true (sdfg_uid sd ≠ sdfg_uid sdfg)) by exact Hroot.
      rewrite (bool_decide_false (sdfg_uid sd = sdfg_uid sdfg)) by exact Hroot.
      cbn [andb orb negb]. destruct (Data.transient arr) eqn:Htr; cbn [andb orb negb].
      * cbn [map fst snd].
        rewrite (bool_decide_false (sdfg_uid sd = sdfg_uid sdfg)) by exact Hroot.
        destruct (Utils.is_ref sd aname); cbn [andb orb negb];
          rewrite !lookup_alter_eq, Hr; simpl; f_equal;
          unfold extend, StorageReport.add_referenced, StorageReport.add_unreferenced,
            StorageReport.add_top_level, StorageReport.details_append; simpl;
          rewrite ?Htr; f_equal; first [lia | reflexivity].
      * rewrite Hr. f_equal. cbn [map]. symmetry. apply extend_nothing.
  - rewrite (bool_decide_false (Data.storage arr = st)) by exact Hst.
    cbn [andb map]. rewrite extend_nothing.
    destruct (bool_decide (sdfg_uid sd ≠ sdfg_uid sdfg) && Data.transient arr);
      [destruct (Utils.is_ref sd aname)
      |destruct (bool_decide (sdfg_uid sd = sdfg_uid sdfg));
         [destruct (Utils.is_ref sd aname)|]];
      rewrite ?lookup_alter_ne by exact Hst; exact Hr.
Qed.


Lemma bytes_of_cons (keep : Entry → bool) (entry : Entry) (entries : list Entry) :
  bytes_of keep (entry :: entries) = bytes_of keep [entry] + bytes_of keep entries.
Proof. unfold bytes_of. simpl. lia. Qed.

Lemma rows_cons (sdfg : SDFG) (st : StorageType.t) (entry : Entry)
    (entries : list Entry) :
  rows sdfg st (entry :: entries) = rows sdfg st [entry] ++ rows sdfg st entries.
Proof.
  unfold rows. cbn [List.filter].
  destruct (in_class st entry && accounted sdfg entry); reflexivity.
Qed.

Lemma count_memory_fold_report (sdfg : SDFG) (entries : list Entry)
    (m : Utils.Allocations) (st : StorageType.t) (r : StorageReport.t) :
  m !! st = Some r →
  foldl (Utils.count_memory_step sdfg) m entries !! st
  = Some (extend r (referenced_bytes sdfg st entries) (unreferenced_bytes sdfg st entries)
                   (top_level_bytes sdfg st entries) (rows sdfg st entries)).
Proof.
  revert m r. induction entries as [|entry entries IH]; intros m r Hr.
  - simpl. rewrite Hr. f_equal. symmetry. apply extend_nothing.
  - cbn [foldl]. rewrite (IH _ _ (count_memory_step_report sdfg m entry st r Hr)).
    rewrite extend_extend. unfold referenced_bytes, unreferenced_bytes, top_level_bytes.
    rewrite (bytes_of_cons _ entry entries), (bytes_of_cons _ entry entries),
      (bytes_of_cons _ entry entries), (rows_cons sdfg st entry entries).
    reflexivity.
Qed.

Lemma initial_allocations_lookup (st : StorageType.t) :
  Utils.initial_allocations !! st = Some (StorageReport.new st).
Proof. destruct st; reflexivity. Qed.

(** The report of a storage class, read off the enumeration of arrays. *)
Lemma count_memory_lookup (sdfg : SDFG) (st : StorageType.t) :
  Utils.count_memory sdfg !! st = Some (expected_report sdfg st).
Proof.
  unfold Utils.count_memory.
  rewrite (count_memory_fold_report sdfg _ _ st _ (initial_allocations_lookup st)).
  reflexivity.
Qed.

Lemma bytes_of_split (k k1 k2 : Entry → bool) (entries : list Entry) :
  (∀ entry, k entry = xorb (k1 entry) (k2 entry) ∧ k1 entry && k2 entry = false) →
  bytes_of k entries = bytes_of k1 entries + bytes_of k2 entries.
Proof.
  intros Hk. unfold bytes_of. induction entries as [|entry entries IH]; [reflexivity|].
  cbn [foldr]. rewrite IH. destruct (Hk entry) as [H1 H2]. rewrite H1.
  destruct (k1 entry), (k2 entry); cbn [xorb andb] in *; try discriminate H2; lia.
Qed.

Lemma referenced_entry_decide (entry : Entry) :
  referenced_entry entry = bool_decide (referenced entry).
Proof.
  unfold referenced_entry, referenced, Utils.is_ref.
  destruct (Utils.is_ref_loop _ _ _) eqn:Href; symmetry.
  - apply bool_decide_eq_true, is_ref_loop_true, Href.
  - apply bool_decide_eq_false. intros Hc. apply is_ref_loop_true in Hc. congruence.
Qed.

(** C5.  An array counts as referenced exactly when an access node of a
    state held directly by its owning SDFG names it.  In the report of
    [count_memory], the referenced bytes of a storage class are the sizes of
    the referenced arrays of the root plus the sizes of the referenced
    transient arrays of the other SDFGs, and the unreferenced bytes are the
    same with the arrays that are not referenced; the top-level bytes are
    the sizes of the arrays of the root alone.  So a transient array of an
    SDFG other than the root adds its size to the referenced bucket of its
    class if it is referenced in its owning scope and to the unreferenced
    bucket otherwise, and an array of such an SDFG that is not transient
    adds to no bucket. *)
Theorem nested_array_accounting (sdfg : SDFG) (st : StorageType.t) :
  (∀ sd aname,
     Utils.is_ref sd aname = true
     ↔ referenced_in_scope sd aname (all_nodes_recursive sd))
  ∧ ∃ r, Utils.count_memory sdfg !! st = Some r
         ∧ StorageReport.referenced_in_bytes r
           = root_bytes sdfg st true + nested_bytes sdfg st true
         ∧ StorageReport.unreferenced_in_bytes r
           = root_bytes sdfg st false + nested_bytes sdfg st false
         ∧ StorageReport.top_level_in_bytes r
           = root_bytes sdfg st true + root_bytes sdfg st false.
Proof.
  split; [intros sd aname; apply is_ref_loop_true|].
  exists (expected_report sdfg st). split; [apply count_memory_lookup|].
  cbn [expected_report StorageReport.referenced_in_bytes
       StorageReport.unreferenced_in_bytes StorageReport.top_level_in_bytes].
  unfold referenced_bytes, unreferenced_bytes, top_level_bytes, root_bytes,
    nested_bytes, accounted.
  split; [|split]; apply bytes_of_split; intros entry;
    rewrite ?referenced_entry_decide;
    destruct (in_class st entry), (owned_by sdfg entry), (Data.transient entry.2),
      (bool_decide (referenced entry)); split; reflexivity.
Qed.

End MemoryTheorems.

Section MemoryExamples.
Import MemorySpec.

(** In [outer] the root array [field] of 64 bytes is referenced, the
    nested transient [tmp] of 32 bytes is referenced and [dead] of 16 bytes
    is not, and the nested argument [arg] of 64 bytes is not transient. *)
Lemma nested_array_accounting_witness :
  ∃ r, Utils.count_memory outer !! StorageType.CPU_Heap = Some r
       ∧ StorageReport.referenced_in_bytes r = 64 + 32
       ∧ StorageReport.unreferenced_in_bytes r = 0 + 16
       ∧ StorageReport.top_level_in_bytes r = 64 + 0.
Proof.
  exact (proj2 (nested_array_accounting outer StorageType.CPU_Heap)).
Defined.

Example count_memory_outer :
  (Utils.count_memory outer !! StorageType.CPU_Heap)
  = Some {| StorageReport.name := StorageType.CPU_Heap;
            StorageReport.referenced_in_bytes := 96;
            StorageReport.unreferenced_in_bytes := 16;
            StorageReport.top_level_in_bytes := 64;
            StorageReport.details :=
              [{| ArrayReport.name := "field"; ArrayReport.total_size_in_bytes := 64;
                  ArrayReport.referenced := true; ArrayReport.transient := false;
                  ArrayReport.top_level := true |};
               {| ArrayReport.name := "tmp"; ArrayReport.total_size_in_bytes := 32;
                  ArrayReport.referenced := true; ArrayReport.transient := true;
                  ArrayReport.top_level := false |};
               {| ArrayReport.name := "dead"; ArrayReport.total_size_in_bytes := 16;
                  ArrayReport.referenced := false; ArrayReport.transient := true;
                  ArrayReport.top_level := false |}] |}.
Proof. reflexivity. Qed.

End MemoryExamples.

(** ** [DaCeProgress] *)

Section ProgressTheorems.
Context {float : Type}.
Variable float_sub : float → float → float.
Variable float_str : float → string.
Variable clock : nat → float.

(** C8.  Around any body, on a configuration whose mode reads as [o]: the
    line "[o] label..." is printed and the clock read before the body runs;
    whether the body returns or raises, the line
    "[o] label...<elapsed>s." is printed after it, with [elapsed] the clock
    at exit minus the clock read at entry; and the outcome of the body, a
    value or an exception, is the outcome of the whole statement. *)
Theorem progress_logger_observational {A : Type} (config : DaceConfig.Attrs)
    (label : string) (o : DaceConfig.DaCeOrchestration)
    (body : Utils.World → result A * Utils.World) (w : Utils.World) :
  DaceConfig.get_orchestrate config = Ok o →
  let prefix := "[" +:+ DaceConfig.str o +:+ "]" in
  let start := clock (Utils.clock_reads w) in
  let entered :=
    {| Utils.stdout := Utils.stdout w ++ [prefix +:+ " " +:+ label +:+ "..."];
       Utils.clock_reads := S (Utils.clock_reads w) |} in
  let r := (body entered).1 in
  let w' := (body entered).2 in
  let elapsed := float_sub (clock (Utils.clock_reads w')) start in
  Utils.with_DaCeProgress float_sub float_str clock config label body w
  = (match r with Ok a => Ok (Some a) | Raise e => Raise e end,
     {| Utils.stdout :=
          Utils.stdout w'
          ++ [prefix +:+ " " +:+ label +:+ "..." +:+ float_str elapsed +:+ "s."];
        Utils.clock_reads := S (Utils.clock_reads w') |}).
Proof.
  intros Ho. cbv zeta.
  unfold Utils.with_DaCeProgress, Utils.DaCeProgress_init, Utils.default_prefix.
  rewrite Ho. cbn [mbind result_bind mret result_ret].
  unfold Utils.__enter__, Utils.__exit__, Utils.log, Utils.print, Utils.time.
  cbn [Utils.prefix Utils.label Utils.start Utils.stdout Utils.clock_reads].
  destruct (body _) as [r w'] eqn:Hbody. cbn [fst snd Utils.stdout Utils.clock_reads].
  destruct r; reflexivity.
Qed.

End ProgressTheorems.

Section ProgressExamples.
Import DaceConfig ConfigSpec ProgressSpec.

(** A failing phase between two clock readings thirty units apart. *)
Lemma progress_logger_observational_witness :
  Utils.with_DaCeProgress Z.sub pretty ten_per_read
    (constructed no_ranks "/cache" None "gtc:dace" Build) "Building"
    failing_phase {| Utils.stdout := []; Utils.clock_reads := 0 |}
  = (Raise (RuntimeError "compilation failed"),
     {| Utils.stdout := ["[DaCeOrchestration.Build] Building...";
                         "compiling";
                         "[DaCeOrchestration.Build] Building...30s."];
        Utils.clock_reads := 4 |}).
Proof.
  etransitivity.
  - apply (progress_logger_observational Z.sub pretty ten_per_read
             (constructed no_ranks "/cache" None "gtc:dace" Build) "Building" Build
             failing_phase {| Utils.stdout := []; Utils.clock_reads := 0 |}).
    reflexivity.
  - vm_compute. reflexivity.
Defined.
End ProgressExamples.

(** ** Enumerating a graph *)

Section GraphTheorems.

(** Induction over the nesting of SDFGs. *)
Lemma SDFG_nested_ind (P : SDFG → Prop) :
  (∀ u name arrs sts,
     (∀ g k inner, g ∈ sts → NestedSDFG k inner ∈ nodes g → P inner) →
     P (mkSDFG u name arrs sts)) →
  ∀ sd, P sd.
Proof.
  intros H. fix F 1. intros [u name arrs sts]. apply H.
  assert (Hall : Forall (λ g, Forall (λ n, match n with
                                           | NestedSDFG _ inner => P inner
                                           | _ => True
                                           end) (nodes g)) sts).
  { induction sts as [|g sts IHs]; constructor; [|exact IHs].
    destruct g as [gu lbl ns es]. simpl.
    induction ns as [|n ns IHn]; constructor; [|exact IHn].
    destruct n; try exact I. apply F. }
  intros g k inner Hg Hn.
  apply (proj1 (Forall_forall _ _) (proj1 (Forall_forall _ _) Hall g Hg) _ Hn).
Qed.

Lemma flat_map_ext_elem {A B : Type} (f g : A → list B) (l : list A) :
  (∀ x, x ∈ l → f x = g x) → flat_map f l = flat_map g l.
Proof.
  induction l as [|x l IH]; intros H; simpl; [reflexivity|].
  rewrite (H x) by (apply elem_of_cons; left; reflexivity).
  rewrite IH; [reflexivity|].
  intros y Hy. apply H, elem_of_cons. right. exact Hy.
Qed.

Lemma omap_flat_map {A B C : Type} (f : B → option C) (g : A → list B) (l : list A) :
  omap f (flat_map g l) = flat_map (λ x, omap f (g x)) l.
Proof.
  induction l as [|x l IH]; simpl; [reflexivity|].
  rewrite omap_app, IH. reflexivity.
Qed.

(** The map entries picked out of [all_nodes_recursive] are the parallel
    regions of the graph, in the same order. *)
Lemma allmaps_parallel_regions (sdfg : SDFG) :
  Utils.allmaps sdfg = CheckerSpec.parallel_regions sdfg.
Proof.
  induction sdfg as [u name arrs sts IH] using SDFG_nested_ind.
  unfold Utils.allmaps. cbn [all_nodes_recursive CheckerSpec.parallel_regions].
  rewrite omap_flat_map. apply flat_map_ext_elem. intros g Hg.
  destruct g as [gu lbl ns es]. cbn [omap list_omap].
  rewrite omap_flat_map. apply flat_map_ext_elem. intros n Hn.
  destruct n as [k d|k m|k m|k l|k inner]; try reflexivity.
  cbn [omap list_omap]. apply (IH (mkStateGraph gu lbl ns es) k inner Hg Hn).
Qed.

(** The maps the pass keeps are the top-level parallel regions. *)
Lemma topmaps_top_level_regions
    (get_parent_map : SDFGState → Node → option (Node * SDFGState)) (sdfg : SDFG) :
  Utils.topmaps get_parent_map sdfg
  = CheckerSpec.top_level_regions get_parent_map sdfg.
Proof.
  unfold Utils.topmaps, CheckerSpec.top_level_regions, CheckerSpec.top_level.
  rewrite allmaps_parallel_regions. apply List.filter_ext.
  intros [me state]. cbn [fst snd].
  destruct (get_parent_map state me); case_bool_decide; congruence.
Qed.

End GraphTheorems.

(** ** [NaN_checker] *)

Section CheckerTheorems.
Import CheckerSpec.
Variable get_parent_map : SDFGState → Node → option (Node * SDFGState).
Variable exit_node : SDFGState → Node → Node.
Variable memlet_path : SDFGState → Edge → Edge * list Edge.
Variable get_view_node : SDFGState → Node → option Node.
Variable new_id : nat → nat.

Abbreviation eligible := (eligible memlet_path).
Abbreviation check_edge := (Utils.check_edge memlet_path get_view_node).
Abbreviation edges_loop := (Utils.edges_loop memlet_path get_view_node).
Abbreviation maps_loop := (Utils.maps_loop exit_node memlet_path get_view_node).
Abbreviation candidate_edges := (candidate_edges get_parent_map exit_node).
Abbreviation edges_of := (edges_of exit_node).

Local Ltac run :=
  cbn [mbind result_bind mret result_ret Utils.node_data negb andb fst snd].

(** What the body of the edge loop does with one edge. *)
Lemma check_edge_run (state : SDFGState) (e : Edge) :
  check_edge state e =
  match dst e with
  | AccessNode _ d =>
      _ ← arrays_getitem (arrays (parent state)) d;
      Ok (if eligible (state, e) then Some (check_of (state, e)) else None)
  | _ => Ok None
  end.
Proof.
  unfold Utils.check_edge, CheckerSpec.eligible, check_of, is_view, dynamic_write,
    Utils.get_last_view_node.
  run. destruct (dst e) as [u d| | | |] eqn:Hdst; try reflexivity. run.
  destruct (arrays_getitem (arrays (parent state)) d) as [desc|err]; [|reflexivity].
  run. case_bool_decide; run; [reflexivity|].
  destruct (str_in "diss_estd" d); run; [reflexivity|].
  destruct (Memlet.dynamic _); reflexivity.
Qed.

Lemma check_edge_declared (state : SDFGState) (e : Edge) :
  declared (state, e) →
  check_edge state e
  = Ok (if eligible (state, e) then Some (check_of (state, e)) else None).
Proof.
  intros Hd. rewrite check_edge_run. unfold declared, CheckerSpec.eligible in *.
  cbn [fst snd] in *. destruct (dst e); try reflexivity.
  destruct (arrays_getitem _ _); [reflexivity|contradiction].
Qed.

Lemma check_edge_Ok (state : SDFGState) (e : Edge) (c : option Utils.Check) :
  check_edge state e = Ok c → declared (state, e).
Proof.
  rewrite check_edge_run. unfold declared. cbn [fst snd].
  destruct (dst e); try (intros _; exact I).
  destruct (arrays_getitem _ _); [intros _; exact I|discriminate].
Qed.

Lemma edges_loop_declared (state : SDFGState) (es : list Edge)
    (checks : list Utils.Check) :
  Forall declared (map (pair state) es) →
  edges_loop state es checks
  = Ok (checks ++ map check_of (List.filter eligible (map (pair state) es))).
Proof.
  revert checks. induction es as [|e es IH]; intros checks Hd; simpl.
  - rewrite app_nil_r. reflexivity.
  - simpl in Hd. apply Forall_cons in Hd as [He Hes].
    rewrite (check_edge_declared _ _ He). cbn [mbind result_bind].
    rewrite (IH _ Hes). destruct (eligible (state, e)); simpl.
    + rewrite <- app_assoc. reflexivity.
    + reflexivity.
Qed.

Lemma edges_loop_Ok (state : SDFGState) (es : list Edge)
    (checks checks' : list Utils.Check) :
  edges_loop state es checks = Ok checks' →
  Forall declared (map (pair state) es).
Proof.
  revert checks. induction es as [|e es IH]; intros checks Hrun; simpl.
  - constructor.
  - simpl in Hrun.
    destruct (check_edge state e) as [c|err] eqn:He; [|discriminate Hrun].
    cbn [mbind result_bind] in Hrun. constructor.
    + exact (check_edge_Ok _ _ _ He).
    + exact (IH _ Hrun).
Qed.

Lemma filter_flat_map {A B C : Type} (f : B → C) (p : B → bool) (g : A → list B)
    (l : list A) :
  map f (List.filter p (flat_map g l))
  = flat_map (λ x, map f (List.filter p (g x))) l.
Proof.
  induction l as [|x l IH]; simpl; [reflexivity|].
  rewrite List.filter_app, List.map_app, IH. reflexivity.
Qed.

Lemma maps_loop_declared (maps : list (Node * SDFGState)) (checks : list Utils.Check) :
  Forall declared (edges_of maps) →
  maps_loop maps checks
  = Ok (checks ++ map check_of (List.filter eligible (edges_of maps))).
Proof.
  revert checks. induction maps as [|[me state] maps IH]; intros checks Hd; simpl.
  - rewrite app_nil_r. reflexivity.
  - unfold CheckerSpec.edges_of in Hd. simpl in Hd. apply Forall_app in Hd as [Hme Hmaps].
    rewrite (edges_loop_declared _ _ _ Hme). cbn [mbind result_bind].
    rewrite (IH _ Hmaps). rewrite List.filter_app, List.map_app, <- app_assoc.
    reflexivity.
Qed.

Lemma maps_loop_Ok (maps : list (Node * SDFGState)) (checks checks' : list Utils.Check) :
  maps_loop maps checks = Ok checks' → Forall declared (edges_of maps).
Proof.
  revert checks. induction maps as [|[me state] maps IH]; intros checks Hrun; simpl.
  - constructor.
  - simpl in Hrun.
    destruct (edges_loop state _ checks) as [c|err] eqn:He; [|discriminate Hrun].
    cbn [mbind result_bind] in Hrun. apply Forall_app. split.
    + exact (edges_loop_Ok _ _ _ _ He).
    + exact (IH _ Hrun).
Qed.


Lemma collect_checks_declared (sdfg : SDFG) :
  Forall declared (candidate_edges sdfg) →
  Utils.collect_checks get_parent_map exit_node memlet_path get_view_node sdfg
  = Ok (map check_of (List.filter eligible (candidate_edges sdfg))).
Proof.
  intros Hd. unfold Utils.collect_checks. rewrite topmaps_top_level_regions.
  rewrite (maps_loop_declared _ _ Hd). reflexivity.
Qed.

Lemma insert_check_run (k : nat) (c : SDFGState * Edge) :
  eligible c = true → declared c →
  ∃ call, Utils.insert_check new_id k (check_of c) = Ok call ∧ instruments c call.
Proof.
  destruct c as [state e]. unfold CheckerSpec.eligible, declared, check_of, instruments.
  cbn [fst snd]. intros He Hd.
  destruct (dst e) as [u d| | | |] eqn:Hdst; try discriminate He.
  destruct (arrays_getitem (arrays (parent state)) d) as [arr|err] eqn:Harr;
    [|contradiction].
  unfold Utils.insert_check. rewrite Harr. run.
  eexists. split; [reflexivity|]. exists d, arr.
  cbn [Utils.on_state Utils.input_nodes Utils.schedule]. unfold device_resident.
  repeat case_bool_decide; cbn [orb];
    repeat split; intros; (reflexivity || tauto || congruence).
Qed.

Lemma insert_loop_run (cs : list (SDFGState * Edge)) (k : nat) :
  Forall (λ c, eligible c = true) cs → Forall declared cs →
  ∃ calls, Utils.insert_loop new_id k (map check_of cs) = Ok calls
           ∧ Forall2 instruments cs calls.
Proof.
  revert k. induction cs as [|c cs IH]; intros k He Hd; cbn [map Utils.insert_loop].
  - exists []. split; [reflexivity|constructor].
  - apply Forall_cons in He as [He Hes]. apply Forall_cons in Hd as [Hd Hds].
    destruct (insert_check_run k c He Hd) as (call & Hcall & Hins).
    destruct (IH (S k) Hes Hds) as (calls & Hcalls & Hall).
    exists (call :: calls). rewrite Hcall. run. rewrite Hcalls. run.
    split; [reflexivity|]. constructor; assumption.
Qed.

(** A run of the pass on a graph whose instrumented destinations are
    declared: one checking map per eligible edge, and the count printed. *)
Lemma NaN_checker_run (sdfg : SDFG) :
  Forall declared (candidate_edges sdfg) →
  ∃ calls,
    Utils.NaN_checker get_parent_map exit_node memlet_path get_view_node new_id sdfg
    = Ok (calls, report (length (List.filter eligible (candidate_edges sdfg))))
    ∧ Forall2 instruments (List.filter eligible (candidate_edges sdfg)) calls.
Proof.
  intros Hd. unfold Utils.NaN_checker. rewrite (collect_checks_declared _ Hd). run.
  destruct (insert_loop_run (List.filter eligible (candidate_edges sdfg)) 0)
    as (calls & Hcalls & Hall).
  - apply Forall_forall. intros c Hc. apply list_elem_of_In, List.filter_In in Hc.
    tauto.
  - apply Forall_forall. intros c Hc. apply list_elem_of_In, List.filter_In in Hc.
    destruct Hc as [Hc _]. apply list_elem_of_In in Hc.
    exact (proj1 (Forall_forall _ _) Hd c Hc).
  - exists calls. rewrite Hcalls. run. rewrite length_map. split; [reflexivity|exact Hall].
Qed.

(** C6.  On a graph whose instrumented destinations are declared, the pass
    returns and prints the number of out edges of exits of top-level
    parallel regions, those the library reports no parent map for among all
    map entries of the graph at any depth, that lead to an access node and
    are neither into a view, nor into an array whose name contains
    "diss_estd", nor dynamic writes, and inserts that many checking maps.
    Two top-level regions with one such edge each give 2; a graph where no
    candidate edge is eligible gives 0. *)
Theorem insertion_count (sdfg : SDFG) :
  Forall declared (candidate_edges sdfg) →
  let n := length (List.filter eligible (candidate_edges sdfg)) in
  (∃ calls,
     Utils.NaN_checker get_parent_map exit_node memlet_path get_view_node new_id sdfg
     = Ok (calls, report n)
     ∧ length calls = n)
  ∧ (∀ me1 s1 e1 me2 s2 e2,
       top_level_regions get_parent_map sdfg = [(me1, s1); (me2, s2)] →
       Utils.out_edges s1 (exit_node s1 me1) = [e1] →
       Utils.out_edges s2 (exit_node s2 me2) = [e2] →
       eligible (s1, e1) = true → eligible (s2, e2) = true →
       n = 2%nat)
  ∧ (Forall (λ c, eligible c = false) (candidate_edges sdfg) → n = 0%nat).
Proof.
  intros Hd n. subst n. split; [|split].
  - destruct (NaN_checker_run sdfg Hd) as (calls & Hrun & Hall).
    exists calls. split; [exact Hrun|]. symmetry. exact (Forall2_length _ _ _ Hall).
  - intros me1 s1 e1 me2 s2 e2 Htop H1 H2 He1 He2.
    unfold CheckerSpec.candidate_edges, CheckerSpec.edges_of.
    rewrite Htop. simpl. rewrite H1, H2. simpl. rewrite He1, He2. reflexivity.
  - intros Hnone. induction (candidate_edges sdfg) as [|c cs IH]; [reflexivity|].
    apply Forall_cons in Hnone as [Hc Hcs]. apply Forall_cons in Hd as [_ Hd].
    simpl. rewrite Hc. exact (IH Hd Hcs).
Qed.

(** C7.  Whenever the pass returns, its checking maps correspond one to
    one, in order, to the eligible edges, and the map inserted for an edge
    has the schedule [GPU_Device] exactly when the array of the destination
    node, looked up in the SDFG of the state, is stored in [GPU_Global] or
    [GPU_Shared], and the schedule [Default] otherwise. *)
Theorem schedule_follows_storage (sdfg : SDFG) (calls : list Utils.MappedTasklet)
    (line : string) :
  Utils.NaN_checker get_parent_map exit_node memlet_path get_view_node new_id sdfg
  = Ok (calls, line) →
  Forall2 instruments (List.filter eligible (candidate_edges sdfg)) calls.
Proof.
  intros Hrun.
  assert (Hd : Forall declared (candidate_edges sdfg)).
  { unfold Utils.NaN_checker, Utils.collect_checks in Hrun.
    rewrite topmaps_top_level_regions in Hrun.
    destruct (maps_loop _ []) as [checks|err] eqn:Hloop; [|discriminate Hrun].
    exact (maps_loop_Ok _ _ _ Hloop). }
  destruct (NaN_checker_run sdfg Hd) as (calls' & Hrun' & Hall).
  rewrite Hrun in Hrun'. injection Hrun' as -> _. exact Hall.
Qed.

End CheckerTheorems.

Section CheckerExamples.
Import CheckerSpec.

(** Two plain outputs give two insertions, three excluded outputs none,
    and a map inside the body of another map is passed over. *)
Lemma insertion_count_witness :
  (∃ calls, flat_checker two_maps = Ok (calls, "Added 2 NaN checks")
            ∧ length calls = 2%nat)
  ∧ (∃ calls, flat_checker only_excluded = Ok (calls, "Added 0 NaN checks")
              ∧ length calls = 0%nat)
  ∧ (∃ calls, nested_checker nested_maps = Ok (calls, "Added 1 NaN checks")
              ∧ length calls = 1%nat).
Proof.
  split; [|split].
  - refine (proj1 (insertion_count flat_parent_map flat_exit_node flat_memlet_path
                     no_view_node flat_new_id two_maps _)).
    vm_compute. repeat constructor.
  - refine (proj1 (insertion_count flat_parent_map flat_exit_node flat_memlet_path
                     no_view_node flat_new_id only_excluded _)).
    vm_compute. repeat constructor.
  - refine (proj1 (insertion_count nested_parent_map flat_exit_node flat_memlet_path
                     no_view_node flat_new_id nested_maps _)).
    vm_compute. repeat constructor.
Defined.

(** The check after the host array is scheduled by default, the one after
    the device array on the device. *)
Lemma schedule_follows_storage_witness :
  Forall2 instruments
    (List.filter (eligible flat_memlet_path)
       (candidate_edges flat_parent_map flat_exit_node two_maps))
    (calls_of (flat_checker two_maps))
  ∧ map Utils.schedule (calls_of (flat_checker two_maps))
    = [ScheduleType.Default; ScheduleType.GPU_Device].
Proof.
  split; [|reflexivity].
  apply (schedule_follows_storage flat_parent_map flat_exit_node flat_memlet_path
           no_view_node flat_new_id two_maps _ (line_of (flat_checker two_maps))).
  reflexivity.
Defined.

End CheckerExamples.

(** * Further properties *)

(** ** The queries of a constructed [DaceConfig] *)

Section ConfigQueries.
Import DaceConfig ConfigSpec.
Context {Partitioner : Type}.
Variable read_target_rank : Z → Partitioner → Attrs → string → Z.
Variable root_path : string.

(** X1.  On every object the constructor returns, the queries answer the
    mode it resolved and the backend it was given, [is_dace_orchestrated]
    says whether the mode differs from [Python], [is_gpu_backend] whether
    "gpu" occurs in the backend name, and an orchestrated object always has
    "dace" in its backend name. *)
Theorem constructed_queries environ communicator backend orchestration tr self tr' :
  __init__ read_target_rank root_path environ communicator backend orchestration tr
  = (Ok self, tr') →
  ∃ o, resolve_orchestration orchestration environ = Ok o
       ∧ get_orchestrate self = Ok o
       ∧ get_backend self = Ok backend
       ∧ is_dace_orchestrated self = Ok (bool_decide (o ≠ Python))
       ∧ is_gpu_backend self = Ok (str_in "gpu" backend)
       ∧ (is_dace_orchestrated self = Ok true → str_in "dace" backend = true).
Proof.
  intros Hinit.
  destruct (resolve_orchestration orchestration environ) as [o|e] eqn:Hres.
  - rewrite (init_run _ _ _ _ _ _ _ _ Hres) in Hinit.
    case_decide as Hbad; [discriminate Hinit|]. injection Hinit as <- _.
    exists o. split; [reflexivity|].
    assert (Ho : get_orchestrate
                   (constructed read_target_rank root_path communicator backend o)
                 = Ok o).
    { unfold get_orchestrate, get_orchestration, getattr.
      destruct communicator; unfold constructed, attrs_before_read, base_attrs;
        simplify_map_eq; reflexivity. }
    assert (Hb : get_backend
                   (constructed read_target_rank root_path communicator backend o)
                 = Ok backend).
    { unfold get_backend, get_str, getattr.
      destruct communicator; unfold constructed, attrs_before_read, base_attrs;
        simplify_map_eq; reflexivity. }
    unfold is_dace_orchestrated, is_gpu_backend.
    unfold get_orchestrate, get_backend in *. rewrite Ho, Hb.
    do 4 (split; [reflexivity|]).
    intros [= Hne]. apply bool_decide_eq_true in Hne.
    destruct (str_in "dace" backend); [reflexivity|]. exfalso. apply Hbad. tauto.
  - rewrite (init_unresolved _ _ _ _ _ _ _ _ Hres) in Hinit. discriminate Hinit.
Qed.

End ConfigQueries.

(** ** The calls the constructor makes *)

Section ConfigProtocol.
Import DaceConfig ConfigSpec.
Context {Partitioner : Type}.
Variable read_target_rank : Z → Partitioner → Attrs → string → Z.
Variable root_path : string.

(** X2.  Whenever the mode resolves, whether construction then succeeds
    or fails on the backend: without a communicator the only call is
    [set_distributed_caches]; with one, [read_target_rank] is called first,
    on an object that has no [target_rank] yet, with the layout file under
    the cache root, and [set_distributed_caches] follows.  In both cases
    [set_distributed_caches] receives the finished object, whose
    [target_rank] is 0 without a communicator and the answer of
    [read_target_rank] with one, and nothing but a descriptor write comes
    after it. *)
Theorem constructor_call_protocol environ communicator backend orchestration o :
  resolve_orchestration orchestration environ = Ok o →
  let run := __init__ read_target_rank root_path environ communicator backend
               orchestration [] in
  ∃ self after,
    (∀ ev, ev ∈ after → is_write ev = true)
    ∧ (is_Ok run.1 → run.1 = Ok self)
    ∧ match communicator with
      | None =>
          run.2 = set_distributed_caches_call self :: after
          ∧ getattr self "my_rank" = Ok (VInt 0)
          ∧ getattr self "rank_size" = Ok (VInt 1)
          ∧ getattr self "target_rank" = Ok (VInt 0)
      | Some c =>
          ∃ partial,
            run.2 = read_target_rank_call (rank c) (partitioner c) partial
                      (root_path +:+ "/.layout/decomposition.yml")
                    :: set_distributed_caches_call self :: after
            ∧ getattr partial "target_rank" = Raise (AttributeError "target_rank")
            ∧ getattr self "my_rank" = Ok (VInt (rank c))
            ∧ getattr self "rank_size" = Ok (VInt (comm_Get_size c))
            ∧ getattr self "target_rank"
              = Ok (VInt (read_target_rank (rank c) (partitioner c) partial
                            (root_path +:+ "/.layout/decomposition.yml")))
      end.
Proof.
  intros Hres run. subst run. rewrite (init_run _ _ _ _ _ _ _ _ Hres). cbn [fst snd app].
  exists (constructed read_target_rank root_path communicator backend o),
         (writes communicator o).
  split; [|split].
  - intros ev Hin. destruct communicator as [c|]; cbn [writes] in Hin.
    + case_decide; set_unfold in Hin.
      * destruct Hin as [->|[]]. reflexivity.
      * contradiction.
    + set_unfold in Hin. contradiction.
  - case_decide; simpl; [contradiction|reflexivity].
  - destruct communicator as [c|]; cbn [reads app].
    + exists (attrs_before_read c backend o). split; [reflexivity|].
      unfold getattr, constructed, attrs_before_read, base_attrs, layout_filepath.
      simplify_map_eq. repeat split; reflexivity.
    + split; [reflexivity|].
      unfold getattr, constructed, base_attrs. simplify_map_eq.
      repeat split; reflexivity.
Qed.

End ConfigProtocol.

Section ConfigQueriesExamples.
Import DaceConfig ConfigSpec.

Lemma constructed_queries_witness :
  ∃ o, resolve_orchestration None ∅ = Ok o
       ∧ get_orchestrate (constructed no_ranks "/cache" None "gtc:gt:gpu" Python) = Ok o
       ∧ get_backend (constructed no_ranks "/cache" None "gtc:gt:gpu" Python)
         = Ok "gtc:gt:gpu"
       ∧ is_dace_orchestrated (constructed no_ranks "/cache" None "gtc:gt:gpu" Python)
         = Ok (bool_decide (o ≠ Python))
       ∧ is_gpu_backend (constructed no_ranks "/cache" None "gtc:gt:gpu" Python)
         = Ok (str_in "gpu" "gtc:gt:gpu")
       ∧ (is_dace_orchestrated (constructed no_ranks "/cache" None "gtc:gt:gpu" Python)
          = Ok true → str_in "dace" "gtc:gt:gpu" = true).
Proof.
  apply (constructed_queries no_ranks "/cache" ∅ None "gtc:gt:gpu" None [] _
           (reads "/cache" None "gtc:gt:gpu" Python
            ++ [set_distributed_caches_call
                  (constructed no_ranks "/cache" None "gtc:gt:gpu" Python)]
            ++ writes None Python)).
  reflexivity.
Defined.

Lemma constructor_call_protocol_witness :
  let run := __init__ no_ranks "/cache" ∅ (Some rank0_of_4) "gtc:dace" (Some Run) [] in
  ∃ self after,
    (∀ ev, ev ∈ after → is_write ev = true)
    ∧ (is_Ok run.1 → run.1 = Ok self)
    ∧ ∃ partial,
        run.2 = read_target_rank_call 0 tt partial ("/cache" +:+ "/.layout/decomposition.yml")
                :: set_distributed_caches_call self :: after
        ∧ getattr partial "target_rank" = Raise (AttributeError "target_rank")
        ∧ getattr self "my_rank" = Ok (VInt 0)
        ∧ getattr self "rank_size" = Ok (VInt 4)
        ∧ getattr self "target_rank"
          = Ok (VInt (no_ranks 0 tt partial ("/cache" +:+ "/.layout/decomposition.yml"))).
Proof.
  apply (constructor_call_protocol no_ranks "/cache" ∅ (Some rank0_of_4) "gtc:dace"
           (Some Run) Run).
  reflexivity.
Defined.

End ConfigQueriesExamples.

(** ** The whole report of [count_memory] *)

Section AccountTheorems.
Import MemorySpec AccountSpec.

(** X3.  The report of [count_memory] has an entry for every storage
    type, named after it.  Its referenced, unreferenced and top-level bytes
    are the sizes of the enumerated arrays of that storage type that are,
    in turn, accounted and referenced, accounted and not referenced, and
    owned by the root; its detail rows are the accounted arrays of that
    storage type in the order of enumeration, each with its name, size,
    referenced, transient and top-level marks.  An array is accounted when
    the root owns it or it is transient. *)
Theorem count_memory_report (sdfg : SDFG) (st : StorageType.t) :
  Utils.count_memory sdfg !! st = Some (expected_report sdfg st).
Proof. apply count_memory_lookup. Qed.

Lemma bytes_balance (sdfg : SDFG) (st : StorageType.t) (entries : list Entry) :
  referenced_bytes sdfg st entries + unreferenced_bytes sdfg st entries
  = top_level_bytes sdfg st entries + nested_transient_bytes sdfg st entries.
Proof.
  unfold referenced_bytes, unreferenced_bytes, top_level_bytes, nested_transient_bytes.
  rewrite <- (bytes_of_split (λ entry, in_class st entry && accounted sdfg entry)).
  - apply bytes_of_split. intros entry. unfold accounted.
    destruct (in_class st entry), (owned_by sdfg entry), (Data.transient entry.2);
      split; reflexivity.
  - intros entry.
    destruct (in_class st entry), (accounted sdfg entry), (referenced_entry entry);
      split; reflexivity.
Qed.

(** X4.  In every storage class of the report, the referenced and the
    unreferenced bytes together are the top-level bytes plus the sizes of
    the transient arrays of nested SDFGs: arrays of nested SDFGs never
    count as top-level, and every top-level array is also counted as
    referenced or unreferenced. *)
Theorem buckets_balance (sdfg : SDFG) (st : StorageType.t) :
  ∃ r, Utils.count_memory sdfg !! st = Some r
       ∧ StorageReport.referenced_in_bytes r + StorageReport.unreferenced_in_bytes r
         = StorageReport.top_level_in_bytes r
           + nested_transient_bytes sdfg st (arrays_recursive sdfg)
       ∧ StorageReport.top_level_in_bytes r
         = top_level_bytes sdfg st (arrays_recursive sdfg).
Proof.
  exists (expected_report sdfg st). split; [apply count_memory_lookup|].
  split; [|reflexivity]. apply bytes_balance.
Qed.

End AccountTheorems.

(** ** The scope of [is_ref] *)

Section ScopeTheorems.
Import MemorySpec ScopeSpec.

(** The nodes of the states of [sd] itself are enumerated with [sd] as the
    parent of their state. *)
Lemma own_nodes_enumerated (sd : SDFG) (g : StateGraph) (n : Node) :
  g ∈ states sd → n ∈ nodes g →
  node_item n {| parent := sd; graph := g |} ∈ all_nodes_recursive sd.
Proof.
  destruct sd as [u name arrs sts]. cbn [states]. intros Hg Hn.
  cbn [all_nodes_recursive]. apply list_elem_of_In, in_flat_map.
  exists g. split; [apply list_elem_of_In; exact Hg|]. right.
  destruct g as [gu lbl ns es]. cbn [nodes] in Hn. apply in_flat_map.
  exists n. split; [apply list_elem_of_In; exact Hn|]. left. reflexivity.
Qed.

(** Every enumerated node sits in a state of [sd] itself or in a state of
    an SDFG nested in [sd]. *)
Lemma enumerated_nodes (sd : SDFG) (n : Node) (state : SDFGState) :
  node_item n state ∈ all_nodes_recursive sd →
  (parent state = sd ∧ graph state ∈ states sd ∧ n ∈ nodes (graph state))
  ∨ parent state ∈ nested_sdfgs sd.
Proof.
  revert n state. induction sd as [u name arrs sts IH] using SDFG_nested_ind.
  intros n state Hin. cbn [all_nodes_recursive] in Hin.
  apply list_elem_of_In, in_flat_map in Hin as (g & Hg & Hin).
  destruct Hin as [Hin|Hin]; [discriminate Hin|].
  destruct g as [gu lbl ns es]. apply in_flat_map in Hin as (m & Hm & Hin).
  destruct Hin as [Hin|Hin].
  - injection Hin as -> <-. left. cbn [parent graph states nodes].
    split; [reflexivity|]. split; apply list_elem_of_In; assumption.
  - right. destruct m as [| | | |k inner]; try contradiction.
    apply list_elem_of_In in Hg, Hm, Hin.
    assert (Hsub : ∀ x, x ∈ inner :: nested_sdfgs inner →
                        x ∈ nested_sdfgs (mkSDFG u name arrs sts)).
    { intros x Hx. cbn [nested_sdfgs]. apply list_elem_of_In, in_flat_map.
      exists (mkStateGraph gu lbl ns es). split; [apply list_elem_of_In; exact Hg|].
      apply in_flat_map. exists (NestedSDFG k inner).
      split; [apply list_elem_of_In; exact Hm|]. apply list_elem_of_In. exact Hx. }
    apply Hsub.
    destruct (IH _ k inner Hg Hm n state Hin) as [(Hp & _)|Hp].
    + rewrite Hp. apply elem_of_cons. left. reflexivity.
    + apply elem_of_cons. right. exact Hp.
Qed.

(** X5.  [is_ref] looks at the states of the SDFG itself only.  An
    access node naming the array in one of its own states makes it answer
    true; and unless the SDFG object is nested in itself, it answers true
    for nothing else, so an array accessed only inside nested SDFGs counts
    as unreferenced. *)
Theorem is_ref_scope_local (sd : SDFG) (aname : string) :
  (accessed_in_own_states sd aname → Utils.is_ref sd aname = true)
  ∧ (not_self_nested sd →
     Utils.is_ref sd aname = true → accessed_in_own_states sd aname).
Proof.
  unfold accessed_in_own_states, Utils.is_ref. split.
  - intros (g & u & Hg & Hn). apply is_ref_loop_true.
    exists u, {| parent := sd; graph := g |}. split; [|reflexivity].
    apply own_nodes_enumerated; assumption.
  - intros Hwf Href. apply is_ref_loop_true in Href as (u & state & Hin & Hp).
    destruct (enumerated_nodes _ _ _ Hin) as [(_ & Hg & Hn)|Hnested].
    + exists (graph state), u. split; assumption.
    + exfalso. exact (Hwf _ Hnested Hp).
Qed.

End ScopeTheorems.

Section ScopeExamples.
Import MemorySpec ScopeSpec.

(** [inner] accesses [tmp] in its own state; [outer], which nests [inner],
    accesses [field] in its own state. *)
Lemma is_ref_scope_local_witness :
  Utils.is_ref inner "tmp" = true ∧ accessed_in_own_states outer "field".
Proof.
  split.
  - apply (proj1 (is_ref_scope_local inner "tmp")).
    exists (mkStateGraph 11 "compute" [AccessNode 12 "tmp"; AccessNode 13 "arg"] []), 12%nat.
    split; apply list_elem_of_In; simpl; tauto.
  - apply (proj2 (is_ref_scope_local outer "field")).
    + intros x Hx. apply list_elem_of_In in Hx. simpl in Hx.
      destruct Hx as [<-|[]]. simpl. lia.
    + reflexivity.
Defined.

End ScopeExamples.

(** ** [NaN_checker] on a graph with an undeclared array *)

Section CheckerErrors.
Import CheckerSpec.
Variable get_parent_map : SDFGState → Node → option (Node * SDFGState).
Variable exit_node : SDFGState → Node → Node.
Variable memlet_path : SDFGState → Edge → Edge * list Edge.
Variable get_view_node : SDFGState → Node → option Node.
Variable new_id : nat → nat.

Lemma arrays_getitem_Raise (a : list (string * Data.t)) (name : string) (e : Exception) :
  arrays_getitem a name = Raise e → e = KeyError name.
Proof.
  induction a as [|[k d] a IH]; simpl.
  - intros [= <-]. reflexivity.
  - case_decide; [discriminate|exact IH].
Qed.

Lemma check_edge_Raise (state : SDFGState) (edge : Edge) (e : Exception) :
  Utils.check_edge memlet_path get_view_node state edge = Raise e →
  ∃ u d, dst edge = AccessNode u d
         ∧ arrays_getitem (arrays (parent state)) d = Raise (KeyError d)
         ∧ e = KeyError d.
Proof.
  rewrite check_edge_run. destruct (dst edge) as [u d| | | |]; try discriminate.
  destruct (arrays_getitem (arrays (parent state)) d) as [desc|err] eqn:Hget;
    [discriminate|].
  cbn [mbind result_bind]. intros [= <-]. exists u, d.
  pose proof (arrays_getitem_Raise _ _ _ Hget) as ->.
  split; [reflexivity|split; [exact Hget|reflexivity]].
Qed.

Lemma edges_loop_Raise (state : SDFGState) (es : list Edge)
    (checks : list Utils.Check) (e : Exception) :
  Utils.edges_loop memlet_path get_view_node state es checks = Raise e →
  ∃ edge, edge ∈ es
          ∧ Utils.check_edge memlet_path get_view_node state edge = Raise e.
Proof.
  revert checks. induction es as [|edge es IH]; intros checks; simpl; [discriminate|].
  destruct (Utils.check_edge memlet_path get_view_node state edge) as [c|err] eqn:Hc;
    cbn [mbind result_bind].
  - intros Hrest. destruct (IH _ Hrest) as (edge' & Hin & He).
    exists edge'. split; [apply elem_of_cons; right; exact Hin|exact He].
  - intros [= <-]. exists edge. split; [apply elem_of_cons; left; reflexivity|exact Hc].
Qed.

Lemma maps_loop_Raise (maps : list (Node * SDFGState)) (checks : list Utils.Check)
    (e : Exception) :
  Utils.maps_loop exit_node memlet_path get_view_node maps checks = Raise e →
  ∃ c, c ∈ edges_of exit_node maps
       ∧ Utils.check_edge memlet_path get_view_node c.1 c.2 = Raise e.
Proof.
  revert checks. induction maps as [|[me state] maps IH]; intros checks; simpl;
    [discriminate|].
  destruct (Utils.edges_loop memlet_path get_view_node state _ checks)
    as [checks'|err] eqn:Hloop; cbn [mbind result_bind].
  - intros Hrest. destruct (IH _ Hrest) as (c & Hin & Hc).
    exists c. split; [|exact Hc]. apply elem_of_app. right. exact Hin.
  - intros [= <-]. destruct (edges_loop_Raise _ _ _ _ Hloop) as (edge & Hin & Hc).
    exists (state, edge). split; [|exact Hc]. apply elem_of_app. left.
    apply list_elem_of_fmap. exists edge. split; [reflexivity|exact Hin].
Qed.

Lemma NaN_checker_Ok_declared (sdfg : SDFG) :
  is_Ok (Utils.NaN_checker get_parent_map exit_node memlet_path get_view_node
           new_id sdfg)
  → Forall declared (candidate_edges get_parent_map exit_node sdfg).
Proof.
  unfold Utils.NaN_checker, Utils.collect_checks.
  rewrite topmaps_top_level_regions.
  destruct (Utils.maps_loop _ _ _ _ []) as [checks|err] eqn:Hloop; [|intros []].
  intros _. exact (maps_loop_Ok _ _ _ _ _ _ Hloop).
Qed.

(** X6.  The pass returns exactly when every out edge of an exit of a
    top-level map that leads to an access node names an array declared in
    the SDFG of its state.  Otherwise it raises the [KeyError] of such an
    undeclared name while it is still collecting the edges to check, before
    any checking map is inserted. *)
Theorem NaN_checker_undeclared (sdfg : SDFG) :
  let run := Utils.NaN_checker get_parent_map exit_node memlet_path get_view_node
               new_id sdfg in
  (is_Ok run ↔ Forall declared (candidate_edges get_parent_map exit_node sdfg))
  ∧ (∀ e, run = Raise e →
          Utils.collect_checks get_parent_map exit_node memlet_path get_view_node sdfg
          = Raise e
          ∧ ∃ state edge u d,
              (state, edge) ∈ candidate_edges get_parent_map exit_node sdfg
              ∧ dst edge = AccessNode u d
              ∧ arrays_getitem (arrays (parent state)) d = Raise (KeyError d)
              ∧ e = KeyError d).
Proof.
  intros run. subst run.
  split; [split; [apply NaN_checker_Ok_declared|]|].
  - intros Hd.
    destruct (NaN_checker_run get_parent_map exit_node memlet_path get_view_node
                new_id sdfg Hd) as (calls & -> & _).
    exact I.
  - intros e Hrun.
    unfold Utils.NaN_checker in Hrun.
    destruct (Utils.collect_checks _ _ _ _ sdfg) as [checks|err] eqn:Hcollect.
    + exfalso. unfold Utils.collect_checks in Hcollect.
      rewrite topmaps_top_level_regions in Hcollect.
      pose proof (maps_loop_Ok _ _ _ _ _ _ Hcollect) as Hd.
      destruct (NaN_checker_run get_parent_map exit_node memlet_path get_view_node
                  new_id sdfg Hd) as (calls & Hrun' & _).
      unfold Utils.NaN_checker, Utils.collect_checks in Hrun'.
      rewrite topmaps_top_level_regions in Hrun'.
      rewrite Hcollect in Hrun'. rewrite Hrun' in Hrun. discriminate Hrun.
    + cbn [mbind result_bind] in Hrun. injection Hrun as <-.
      split; [reflexivity|]. unfold Utils.collect_checks in Hcollect.
      rewrite topmaps_top_level_regions in Hcollect.
      destruct (maps_loop_Raise _ _ _ Hcollect) as ([state edge] & Hin & Hc).
      destruct (check_edge_Raise _ _ _ Hc) as (u & d & Hdst & Hget & ->).
      exists state, edge, u, d. repeat split; assumption.
Qed.

End CheckerErrors.

(** ** The ranges of an inserted check *)

Section RangeTheorems.
Import CheckerSpec RangeSpec.
Variable get_parent_map : SDFGState → Node → option (Node * SDFGState).
Variable exit_node : SDFGState → Node → Node.
Variable memlet_path : SDFGState → Edge → Edge * list Edge.
Variable get_view_node : SDFGState → Node → option Node.
Variable new_id : nat → nat.

Lemma index_name_inj (i j : nat) : Utils.index_name i = Utils.index_name j → i = j.
Proof.
  unfold Utils.index_name. intros H. simpl in H. injection H as H.
  exact (pretty_nat_inj _ _ H).
Qed.

Lemma range_names (subset : list (Expr * Expr * Expr)) :
  map fst (imap (λ i '(b, en, st),
                   (Utils.index_name i,
                    (Utils.evaluate b, Utils.evaluate en, Utils.evaluate st))) subset)
  = map Utils.index_name (seq 0 (length subset)).
Proof.
  change (map fst ?l) with (fst <$> l). rewrite fmap_imap.
  rewrite (imap_ext _ (λ i _, Utils.index_name i)).
  - apply imap_seq_0.
  - intros i [[b en] st] _. reflexivity.
Qed.

Lemma range_bounds (subset : list (Expr * Expr * Expr)) :
  map snd (imap (λ i '(b, en, st),
                   (Utils.index_name i,
                    (Utils.evaluate b, Utils.evaluate en, Utils.evaluate st))) subset)
  = map evaluate_range subset.
Proof.
  change (map snd ?l) with (snd <$> l). rewrite fmap_imap.
  rewrite (imap_ext _ (const evaluate_range)).
  - apply imap_const.
  - intros i [[b en] st] _. reflexivity.
Qed.

Lemma insert_check_covers (k : nat) (c : SDFGState * Edge) :
  eligible memlet_path c = true → declared c →
  ∃ call, Utils.insert_check new_id k (check_of c) = Ok call ∧ covers c call.
Proof.
  destruct c as [state e]. unfold eligible, declared, check_of, covers.
  cbn [fst snd]. intros He Hd.
  destruct (dst e) as [u d| | | |] eqn:Hdst; try discriminate He.
  destruct (arrays_getitem (arrays (parent state)) d) as [arr|err] eqn:Harr;
    [|contradiction].
  unfold Utils.insert_check. rewrite Harr.
  cbn [mbind result_bind mret result_ret]. eexists. split; [reflexivity|].
  cbn [Utils.map_ranges Utils.inputs Utils.outputs Utils.output_nodes].
  rewrite range_names, range_bounds. split; [reflexivity|]. split; [reflexivity|].
  split.
  - change (map Utils.index_name ?l) with (Utils.index_name <$> l).
    apply NoDup_fmap_2_strong; [|apply NoDup_seq].
    intros i j _ _. apply index_name_inj.
  - exists u, (new_id k), d, arr. repeat split; first [reflexivity | exact Harr].
Qed.

Lemma insert_loop_covers (cs : list (SDFGState * Edge)) (k : nat) :
  Forall (λ c, eligible memlet_path c = true) cs → Forall declared cs →
  ∃ calls, Utils.insert_loop new_id k (map check_of cs) = Ok calls
           ∧ Forall2 covers cs calls.
Proof.
  revert k. induction cs as [|c cs IH]; intros k He Hd; cbn [map Utils.insert_loop].
  - exists []. split; [reflexivity|constructor].
  - apply Forall_cons in He as [He Hes]. apply Forall_cons in Hd as [Hd Hds].
    destruct (insert_check_covers k c He Hd) as (call & Hcall & Hcov).
    destruct (IH (S k) Hes Hds) as (calls & Hcalls & Hall).
    exists (call :: calls). rewrite Hcall. cbn [mbind result_bind]. rewrite Hcalls.
    split; [reflexivity|]. constructor; assumption.
Qed.

(** X7.  Whenever the pass returns, the checking map inserted for an
    eligible edge iterates over the subset of the memlet of that edge, with
    [int_floor] resolved in every bound, under the pairwise distinct
    variables [__i0], [__i1], ... in the order of the dimensions; its
    tasklet reads and writes the destination array under one index per
    dimension of the array, and its output goes to a copy of the
    destination node that names the same array. *)
Theorem checks_cover_written_subset (sdfg : SDFG) (calls : list Utils.MappedTasklet)
    (line : string) :
  Utils.NaN_checker get_parent_map exit_node memlet_path get_view_node new_id sdfg
  = Ok (calls, line) →
  Forall2 covers
    (List.filter (eligible memlet_path) (candidate_edges get_parent_map exit_node sdfg))
    calls.
Proof.
  intros Hrun.
  assert (Hd : Forall declared (candidate_edges get_parent_map exit_node sdfg)).
  { apply (NaN_checker_Ok_declared get_parent_map exit_node memlet_path get_view_node
             new_id sdfg). rewrite Hrun. exact I. }
  unfold Utils.NaN_checker in Hrun.
  rewrite (collect_checks_declared _ _ _ _ _ Hd) in Hrun.
  cbn [mbind result_bind] in Hrun.
  destruct (insert_loop_covers
              (List.filter (eligible memlet_path)
                 (candidate_edges get_parent_map exit_node sdfg)) 0)
    as (calls' & Hcalls & Hall).
  - apply Forall_forall. intros c Hc. apply list_elem_of_In, List.filter_In in Hc.
    tauto.
  - apply Forall_forall. intros c Hc. apply list_elem_of_In, List.filter_In in Hc.
    destruct Hc as [Hc _]. apply list_elem_of_In in Hc.
    exact (proj1 (Forall_forall _ _) Hd c Hc).
  - rewrite Hcalls in Hrun. cbn [mbind result_bind mret result_ret] in Hrun.
    injection Hrun as <- _. exact Hall.
Qed.

End RangeTheorems.

Section RangeExamples.
Import CheckerSpec RangeSpec.

Lemma checks_cover_written_subset_witness :
  Forall2 covers
    (List.filter (eligible flat_memlet_path)
       (candidate_edges flat_parent_map flat_exit_node two_maps))
    (calls_of (flat_checker two_maps))
  ∧ map Utils.map_ranges (calls_of (flat_checker two_maps))
    = [[("__i0", (Integer 0, Integer 3, Integer 1));
        ("__i1", (Integer 0, int_floor (Symbol "N") (Integer 2), Integer 1))];
       [("__i0", (Integer 0, Integer 3, Integer 1));
        ("__i1", (Integer 0, int_floor (Symbol "N") (Integer 2), Integer 1))]].
Proof.
  split; [|reflexivity].
  apply (checks_cover_written_subset flat_parent_map flat_exit_node flat_memlet_path
           no_view_node flat_new_id two_maps _ (line_of (flat_checker two_maps))).
  reflexivity.
Defined.

End RangeExamples.

(** ** The text of the memory report *)

Section ReportTheorems.
Import MemorySpec AccountSpec ReportSpec.
Variable fmt_mb : Z → string.

Lemma append_assoc (a b c : string) : (a +:+ b) +:+ c = a +:+ b +:+ c.
Proof.
  induction a as [|x a IH]; [reflexivity|].
  change (String x a +:+ b) with (String x (a +:+ b)).
  change (String x (a +:+ b) +:+ c) with (String x ((a +:+ b) +:+ c)).
  change (String x a +:+ b +:+ c) with (String x (a +:+ b +:+ c)).
  rewrite IH. reflexivity.
Qed.

Lemma append_nil_r (a : string) : a +:+ "" = a.
Proof.
  induction a as [|x a IH]; [reflexivity|].
  change (String x a +:+ "") with (String x (a +:+ "")). rewrite IH. reflexivity.
Qed.

Lemma foldl_append {A : Type} (f : A → string) (l : list A) (report : string) :
  foldl (λ report x, report +:+ f x) report l = report +:+ concat_all (map f l).
Proof.
  revert report. induction l as [|x l IH]; intros report; simpl.
  - symmetry. apply append_nil_r.
  - rewrite IH. apply append_assoc.
Qed.

Lemma render_storage_text (detail_report : bool) (report : string) (sdfg : SDFG)
    (st : StorageType.t) :
  Report.render_storage fmt_mb detail_report report st (expected_report sdfg st)
  = report +:+ (if printed sdfg st then section_text fmt_mb detail_report sdfg st
                else "").
Proof.
  unfold Report.render_storage, printed, section_text, totals_text, table_head.
  cbn [expected_report StorageReport.referenced_in_bytes
       StorageReport.unreferenced_in_bytes StorageReport.top_level_in_bytes
       StorageReport.details].
  destruct (negb _ || _); [|symmetry; apply append_nil_r].
  destruct detail_report.
  - rewrite foldl_append. rewrite !append_assoc. reflexivity.
  - rewrite !append_assoc. rewrite append_nil_r. reflexivity.
Qed.

Lemma render_all_text (detail_report : bool) (sdfg : SDFG)
    (sts : list StorageType.t) (report : string) :
  foldl (λ report storage,
           match Utils.count_memory sdfg !! storage with
           | Some allocs => Report.render_storage fmt_mb detail_report report storage allocs
           | None => report
           end) report sts
  = report +:+ concat_all (map (section_text fmt_mb detail_report sdfg)
                               (List.filter (printed sdfg) sts)).
Proof.
  revert report. induction sts as [|st sts IH]; intros report; simpl.
  - symmetry. apply append_nil_r.
  - rewrite count_memory_lookup, render_storage_text, IH.
    destruct (printed sdfg st); simpl.
    + apply append_assoc.
    + rewrite append_nil_r. reflexivity.
Qed.

(** X8.  The text of the report is the name of the graph followed by a
    colon and a line break, then one block per storage class that holds
    referenced bytes or a positive amount of top-level bytes, in the order
    of the storage types; a block gives the three totals and, when details
    are asked for, an empty line, the table head and one row per accounted
    array of the class in the order of enumeration.  Storage classes that
    hold neither are left out, whatever their unreferenced bytes. *)
Theorem report_text (sdfg : SDFG) (detail_report : bool) :
  Report.count_memory fmt_mb sdfg detail_report
  = sdfg_name sdfg +:+ ":" +:+ Report.nl
    +:+ concat_all (map (section_text fmt_mb detail_report sdfg)
                        (List.filter (printed sdfg) StorageType.members)).
Proof.
  unfold Report.count_memory. rewrite render_all_text. rewrite !append_assoc.
  reflexivity.
Qed.

End ReportTheorems.

Section ReportOmissions.
Import MemorySpec AccountSpec ReportSpec.
Variable fmt_mb : Z → string.

Lemma bytes_of_none (keep : Entry → bool) (entries : list Entry) :
  (∀ entry, entry ∈ entries → keep entry = false) → bytes_of keep entries = 0.
Proof.
  unfold bytes_of. induction entries as [|entry entries IH]; intros Hk; [reflexivity|].
  cbn [foldr]. rewrite (Hk entry) by (apply elem_of_cons; left; reflexivity).
  rewrite IH by (intros e He; apply Hk, elem_of_cons; right; exact He). reflexivity.
Qed.

(** X9.  Take a storage class whose accounted arrays all belong to nested
    SDFGs and are all unreferenced there.  The report [count_memory] keeps
    for it holds the whole size of these arrays as unreferenced bytes, yet
    the pass of the rendering loop over this class leaves the text as it
    was, with or without details, and the text returned is made of the
    blocks of the other classes only. *)
Theorem unreferenced_only_class_omitted (sdfg : SDFG) (st : StorageType.t) :
  (∀ entry, entry ∈ arrays_recursive sdfg →
            in_class st entry = true → accounted sdfg entry = true →
            owned_by sdfg entry = false ∧ referenced_entry entry = false) →
  (∃ r, Utils.count_memory sdfg !! st = Some r
        ∧ StorageReport.unreferenced_in_bytes r
          = nested_transient_bytes sdfg st (arrays_recursive sdfg)
        ∧ ∀ detail_report report,
            Report.render_storage fmt_mb detail_report report st r = report)
  ∧ ∀ detail_report,
      Report.count_memory fmt_mb sdfg detail_report
      = sdfg_name sdfg +:+ ":" +:+ Report.nl
        +:+ concat_all
              (map (section_text fmt_mb detail_report sdfg)
                   (List.filter (λ storage, printed sdfg storage
                                            && negb (bool_decide (storage = st)))
                                StorageType.members)).
Proof.
  intros Hdead.
  assert (Href : referenced_bytes sdfg st (arrays_recursive sdfg) = 0).
  { apply bytes_of_none. intros entry Hin.
    destruct (in_class st entry) eqn:Hc, (accounted sdfg entry) eqn:Ha;
      try reflexivity.
    destruct (Hdead entry Hin Hc Ha) as [_ ->]. reflexivity. }
  assert (Htop : top_level_bytes sdfg st (arrays_recursive sdfg) = 0).
  { apply bytes_of_none. intros entry Hin.
    destruct (in_class st entry) eqn:Hc; [|reflexivity].
    destruct (owned_by sdfg entry) eqn:Ho; [|reflexivity].
    assert (Ha : accounted sdfg entry = true) by (unfold accounted; rewrite Ho; reflexivity).
    destruct (Hdead entry Hin Hc Ha) as [Ho' _]. congruence. }
  assert (Hprinted : printed sdfg st = false).
  { unfold printed. rewrite Href, Htop. reflexivity. }
  split.
  - exists (expected_report sdfg st). split; [apply count_memory_lookup|]. split.
    + cbn [expected_report StorageReport.unreferenced_in_bytes].
      pose proof (bytes_balance sdfg st (arrays_recursive sdfg)). lia.
    + intros detail_report report. unfold Report.render_storage.
      cbn [expected_report StorageReport.referenced_in_bytes
           StorageReport.top_level_in_bytes].
      rewrite Href, Htop. reflexivity.
  - intros detail_report. unfold Report.count_memory.
    rewrite render_all_text, !append_assoc.
    rewrite (List.filter_ext (printed sdfg)
               (λ storage, printed sdfg storage && negb (bool_decide (storage = st))));
      [reflexivity|].
    intros storage. case_bool_decide as Hst.
    + subst storage. rewrite Hprinted. reflexivity.
    + rewrite andb_true_r. reflexivity.
Qed.

End ReportOmissions.

Section ReportExamples.
Import MemorySpec AccountSpec ReportSpec.

(** 8192 unreferenced bytes on the device, and a report of one line. *)
Lemma unreferenced_only_class_omitted_witness :
  (∃ r, Utils.count_memory dead_on_device !! StorageType.GPU_Global = Some r
        ∧ StorageReport.unreferenced_in_bytes r = 8192
        ∧ ∀ detail_report report,
            Report.render_storage pretty detail_report report StorageType.GPU_Global r
            = report)
  ∧ ∀ detail_report,
      Report.count_memory pretty dead_on_device detail_report
      = "dead_on_device:" +:+ Report.nl.
Proof.
  apply (unreferenced_only_class_omitted pretty dead_on_device StorageType.GPU_Global).
  intros entry Hin _ _. apply list_elem_of_In in Hin. simpl in Hin.
  destruct Hin as [<-|[]]. split; reflexivity.
Defined.

End ReportExamples.

(** ** global_config.py *)

Section GlobalConfigTheorems.
Import Stdlib.Strings.Ascii.
Import GlobalConfig GlobalConfigSpec.

Local Ltac each_char c :=
  destruct c as [[] [] [] [] [] [] [] []]; vm_compute.

Lemma upper_T (c : Ascii.ascii) :
  to_upper c = "T"%char ↔ to_lower c = "t"%char.
Proof. each_char c; split; intros H; first [reflexivity | discriminate H]. Qed.

Lemma letter_cased (c x : Ascii.ascii) :
  x ∈ ["t"; "r"; "u"; "e"]%char → to_lower c = x → is_cased c = true.
Proof.
  intros Hx Hc. apply list_elem_of_In in Hx. simpl in Hx.
  destruct Hx as [<-|[<-|[<-|[<-|[]]]]]; revert Hc; each_char c; intros H;
    first [reflexivity | discriminate H].
Qed.

(** [title] gives "True" exactly on the spellings of "true" in any case. *)
Lemma title_True (s : string) : title s = "True" ↔ lower s = "true".
Proof.
  unfold title.
  destruct s as [|c1 [|c2 [|c3 [|c4 [|c5 s]]]]]; cbn [title_from lower];
    try (split; discriminate).
  split.
  - intros [= H1 H2 H3 H4].
    apply upper_T in H1.
    pose proof (letter_cased c1 "t" ltac:(set_solver) H1) as Hc1.
    rewrite Hc1 in H2.
    pose proof (letter_cased c2 "r" ltac:(set_solver) H2) as Hc2.
    rewrite Hc2 in H3.
    pose proof (letter_cased c3 "u" ltac:(set_solver) H3) as Hc3.
    rewrite Hc3 in H4. rewrite H1, H2, H3, H4. reflexivity.
  - intros [= H1 H2 H3 H4].
    rewrite (letter_cased c1 "t" ltac:(set_solver) H1).
    rewrite (letter_cased c2 "r" ltac:(set_solver) H2).
    rewrite (letter_cased c3 "u" ltac:(set_solver) H3).
    apply upper_T in H1. rewrite H1, H2, H3, H4. reflexivity.
Qed.

(** X10.  [getenv_bool] answers true exactly when the value of the
    variable, or the default when the variable is unset, spells "true" in
    any mix of upper and lower case; every other value, the empty one
    included, gives false.  In particular the rebuild flag of a freshly
    imported module is false when [FV3_STENCIL_REBUILD_FLAG] is unset. *)
Theorem getenv_bool_true_iff (environ : gmap string string) (name dflt : string) :
  is_ascii (getenv environ name dflt) = true →
  (getenv_bool environ name dflt = true ↔ lower (getenv environ name dflt) = "true")
  ∧ (environ !! name = None →
     getenv_bool environ name dflt = bool_decide (lower dflt = "true"))
  ∧ (∀ P, environ !! "FV3_STENCIL_REBUILD_FLAG" = None →
          get_rebuild (imported P environ) = false).
Proof.
  intros _. unfold getenv_bool. split; [|split].
  - rewrite bool_decide_eq_true. apply title_True.
  - intros Hunset. unfold getenv. rewrite Hunset. cbn [default].
    apply bool_decide_ext, title_True.
  - intros P Hunset. unfold get_rebuild, imported. cbn [_REBUILD].
    unfold getenv_bool, getenv. rewrite Hunset. reflexivity.
Qed.


Section Sequences.
Context {P : Type}.

Lemma step_cache_kept (g : Globals P) (op : Op P) (answer : bool) :
  get_validate_args_cache g = Some answer →
  get_validate_args_cache (step g op) = Some answer.
Proof.
  intros Hc. destruct op; cbn [step]; try exact Hc.
  - unfold get_validate_args. rewrite Hc. exact Hc.
  - unfold set_partitioner. destruct (_PARTITIONER g); exact Hc.
  - unfold set_partitioner_once. destruct (_PARTITIONER g); exact Hc.
Qed.

Lemma run_cache_kept (ops : list (Op P)) (g : Globals P) (answer : bool) :
  get_validate_args_cache g = Some answer →
  get_validate_args_cache (run ops g) = Some answer.
Proof.
  unfold run. revert g. induction ops as [|op ops IH]; intros g Hc; [exact Hc|].
  cbn [foldl]. apply IH, step_cache_kept, Hc.
Qed.

(** X11.  The first call of [get_validate_args] answers the flag as it
    stands, and from then on every call gives that same answer, whatever
    calls are made in between: [set_validate_args] changes the global but
    no longer what [get_validate_args] returns. *)
Theorem get_validate_args_frozen (g : Globals P) (ops : list (Op P)) :
  (get_validate_args_cache g = None → (get_validate_args g).1 = _VALIDATE_ARGS g)
  ∧ (get_validate_args (run ops (get_validate_args g).2)).1 = (get_validate_args g).1
  ∧ ∀ flag, _VALIDATE_ARGS (set_validate_args flag (get_validate_args g).2) = flag.
Proof.
  split; [|split].
  - intros Hc. unfold get_validate_args. rewrite Hc. reflexivity.
  - assert (Hc : get_validate_args_cache (get_validate_args g).2
                 = Some (get_validate_args g).1).
    { unfold get_validate_args.
      destruct (get_validate_args_cache g) eqn:Hg; [exact Hg|reflexivity]. }
    pose proof (run_cache_kept ops _ _ Hc) as Hrun.
    unfold get_validate_args at 1. rewrite Hrun. reflexivity.
  - intros flag. reflexivity.
Qed.

Lemma step_partitioner_kept (g : Globals P) (op : Op P) (p : P) :
  is_set_partitioner op = false →
  _PARTITIONER g = Some p →
  _PARTITIONER (step g op) = Some p ∧ stdout (step g op) = stdout g.
Proof.
  intros Hop Hp. destruct op; cbn [step]; try discriminate Hop;
    try (split; [exact Hp|reflexivity]).
  - unfold get_validate_args. destruct (get_validate_args_cache g);
      split; first [exact Hp | reflexivity].
  - unfold set_partitioner_once. rewrite Hp. split; [exact Hp|reflexivity].
Qed.

(** X12.  In every state [set_partitioner] installs its argument, and it
    prints its one-line question exactly when a partitioner was in place
    before, so not on a first call.  [set_partitioner_once] installs its
    argument when no partitioner is in place and never prints.  Once a
    partitioner is in place, no sequence of calls without [set_partitioner]
    replaces it or prints anything, [set_partitioner_once] included. *)
Theorem partitioner_set_once (g : Globals P) (ops : list (Op P)) :
  (∀ q, get_partitioner (set_partitioner q g) = q
        ∧ stdout (set_partitioner q g)
          = stdout g ++ match get_partitioner g with
                        | Some _ => ["re-setting the partitioner, why is that?"]
                        | None => []
                        end)
  ∧ (∀ q, get_partitioner g = None →
          get_partitioner (set_partitioner_once q g) = q
          ∧ stdout (set_partitioner_once q g) = stdout g)
  ∧ (∀ p, get_partitioner g = Some p →
          forallb (λ op, negb (is_set_partitioner op)) ops = true →
          get_partitioner (run ops g) = Some p ∧ stdout (run ops g) = stdout g).
Proof.
  unfold get_partitioner. split; [|split].
  - intros q. unfold set_partitioner.
    destruct (_PARTITIONER g); cbn [_PARTITIONER stdout print];
      [|rewrite app_nil_r]; split; reflexivity.
  - intros q Hnone. unfold set_partitioner_once. rewrite Hnone.
    split; reflexivity.
  - intros p Hp Hops. unfold run. revert g Hp.
    induction ops as [|op ops IH]; intros g Hp.
    + split; [exact Hp|reflexivity].
    + cbn [forallb] in Hops. apply andb_true_iff in Hops as [Hop Hops].
      apply negb_true_iff in Hop.
      destruct (step_partitioner_kept g op p Hop Hp) as [Hp' Hout].
      cbn [foldl]. destruct (IH Hops _ Hp') as [Hp'' Hout'].
      split; [exact Hp''|]. rewrite Hout'. exact Hout.
Qed.

Lemma step_backend (g : Globals P) (op : Op P) :
  _BACKEND (step g op) = match backend_written op with
                         | Some b => Some b
                         | None => _BACKEND g
                         end
  ∧ _REBUILD (step g op) = default (_REBUILD g) (rebuild_written op).
Proof.
  destruct op; cbn [step backend_written rebuild_written default];
    try (split; reflexivity).
  - unfold get_validate_args. destruct (get_validate_args_cache g); split; reflexivity.
  - unfold set_partitioner. destruct (_PARTITIONER g); split; reflexivity.
  - unfold set_partitioner_once. destruct (_PARTITIONER g); split; reflexivity.
Qed.

(** X13.  After any sequence of calls, [get_backend] answers the argument
    of the last [set_backend] of the sequence, and what it answered before
    when there is none; likewise [get_rebuild] and [set_rebuild].  No other
    function of the module touches these two globals. *)
Theorem last_setting_wins (g : Globals P) (ops : list (Op P)) :
  get_backend (run ops g)
  = match last (omap backend_written ops) with
    | Some b => Some b
    | None => get_backend g
    end
  ∧ get_rebuild (run ops g) = default (get_rebuild g) (last (omap rebuild_written ops)).
Proof.
  unfold get_backend, get_rebuild, run.
  induction ops as [|op ops IH] using rev_ind; [split; reflexivity|].
  rewrite foldl_app. cbn [foldl]. rewrite !omap_app.
  destruct (step_backend (foldl step g ops) op) as [Hb Hr]. rewrite Hb, Hr.
  destruct IH as [IHb IHr]. rewrite IHb, IHr.
  cbn [omap list_omap].
  destruct (backend_written op), (rebuild_written op); cbn [default];
    rewrite ?app_nil_r, ?last_snoc; split; reflexivity.
Qed.

End Sequences.

End GlobalConfigTheorems.

Section GlobalConfigExamples.
Import GlobalConfig GlobalConfigSpec.

Lemma getenv_bool_true_iff_witness :
  (getenv_bool {["FV3_STENCIL_REBUILD_FLAG" := "tRUE"]} "FV3_STENCIL_REBUILD_FLAG" "False"
   = true
   ↔ lower (getenv {["FV3_STENCIL_REBUILD_FLAG" := "tRUE"]}
              "FV3_STENCIL_REBUILD_FLAG" "False") = "true")
  ∧ getenv_bool {["FV3_STENCIL_REBUILD_FLAG" := "tRUE"]} "FV3_STENCIL_REBUILD_FLAG" "False"
    = true
  ∧ getenv_bool {["FV3_STENCIL_REBUILD_FLAG" := "1"]} "FV3_STENCIL_REBUILD_FLAG" "False"
    = false.
Proof.
  split; [|split; reflexivity].
  apply (getenv_bool_true_iff {["FV3_STENCIL_REBUILD_FLAG" := "tRUE"]}
           "FV3_STENCIL_REBUILD_FLAG" "False").
  reflexivity.
Defined.

(** A partitioner installed once survives a second [set_partitioner_once]
    and a change of backend. *)
Lemma partitioner_set_once_witness :
  (get_partitioner (set_partitioner (Some 1%nat) (imported nat ∅)) = Some 1%nat
   ∧ stdout (set_partitioner (Some 1%nat) (imported nat ∅)) = [])
  ∧ (get_partitioner
       (set_partitioner (Some 2%nat) (set_partitioner (Some 1%nat) (imported nat ∅)))
     = Some 2%nat
     ∧ stdout
         (set_partitioner (Some 2%nat) (set_partitioner (Some 1%nat) (imported nat ∅)))
       = ["re-setting the partitioner, why is that?"])
  ∧ (get_partitioner (set_partitioner_once (Some 1%nat) (imported nat ∅)) = Some 1%nat
     ∧ stdout (set_partitioner_once (Some 1%nat) (imported nat ∅)) = [])
  ∧ (get_partitioner
       (run [SetPartitionerOnce (Some 2%nat); SetBackend "numpy"]
            (set_partitioner_once (Some 1%nat) (imported nat ∅)))
     = Some 1%nat
     ∧ stdout
         (run [SetPartitionerOnce (Some 2%nat); SetBackend "numpy"]
              (set_partitioner_once (Some 1%nat) (imported nat ∅)))
       = []).
Proof.
  split; [|split; [|split]].
  - exact (proj1 (partitioner_set_once (imported nat ∅) []) (Some 1%nat)).
  - exact (proj1 (partitioner_set_once (set_partitioner (Some 1%nat) (imported nat ∅))
                    []) (Some 2%nat)).
  - exact (proj1 (proj2 (partitioner_set_once (imported nat ∅) [])) (Some 1%nat)
             eq_refl).
  - exact (proj2 (proj2 (partitioner_set_once
                           (set_partitioner_once (Some 1%nat) (imported nat ∅))
                           [SetPartitionerOnce (Some 2%nat); SetBackend "numpy"]))
             1%nat eq_refl eq_refl).
Defined.

End GlobalConfigExamples.
